(** * AI flashcard generator: the deck workflow, verified against its source

    A shallow embedding of the TypeScript sources

    - [src/utils/styleUtils.ts]       (module [StyleUtils]),
    - [src/services/geminiService.ts] (module [GeminiService]),
    - the two copies of [parseFile] and [FileUploadScreen] (module [FileUpload]),
    - [src/App.tsx] and the [FlashcardDeck] component (module [Deck]),

    followed by the properties of the deck state machine.

    Conventions.  A JavaScript string is a [string]; its characters stand for
    the UTF-16 code units below 256.  A JavaScript object whose properties hold strings is a
    [gmap string string]; a property that is absent reads as [None]
    ([undefined]).  React state is an explicit record; an [async] function is
    split at its [await] into the part that runs when it is called and the
    part that runs when the awaited promise settles. *)

From Stdlib Require Import Ascii String.
From stdpp Require Import gmap strings list fin_maps.

Set Warnings "-abstract-large-number".

Open Scope string_scope.
Open Scope nat_scope.
Open Scope list_scope.

(* ===================================================================== *)
(** * Part I: the embedding                                               *)
(* ===================================================================== *)

(** ** JavaScript primitives used by the sources *)
Module JS.

(** [Boolean(v)] for a value that is a string or [undefined]/[null]:
    only a non-empty string is truthy. *)
Definition truthy (v : option string) : bool :=
  match v with
  | Some s => negb (String.eqb s "")
  | None => false
  end.

(** [s.substring(a, b)]: both indices are clamped to the length of [s] and
    swapped when [a > b]. *)
Definition substring (a b : nat) (s : string) : string :=
  let a' := a `min` String.length s in
  let b' := b `min` String.length s in
  String.substring (a' `min` b') ((a' `max` b') - (a' `min` b')) s.

(** [l.join(sep)]; [undefined] elements are written as the empty string. *)
Fixpoint join (sep : string) (l : list (option string)) : string :=
  match l with
  | [] => ""
  | [x] => default "" x
  | x :: rest => default "" x +:+ sep +:+ join sep rest
  end.

(** [s.split(sep)] for a one-character separator: never empty. *)
Fixpoint split (sep : ascii) (s : string) : list string :=
  match s with
  | EmptyString => [""]
  | String c rest =>
      if Ascii.eqb c sep then "" :: split sep rest
      else match split sep rest with
           | [] => [String c ""]
           | seg :: segs => String c seg :: segs
           end
  end.


(** [a.pop()]: the last element, [undefined] on the empty array. *)
Definition pop (a : list string) : option string := last a.

(** [s.toLowerCase()] on the code units below 256: the capital letters
    are A to Z (65 to 90) and the Latin-1 capitals U+00C0 to U+00DE without
    the multiplication sign U+00D7; each lowers to the code unit 32 above
    it, and every other code unit below 256 stays as it is. *)
Definition lower_ascii (c : ascii) : ascii :=
  let n := nat_of_ascii c in
  if ((65 <=? n) && (n <=? 90))
     || ((192 <=? n) && (n <=? 214))
     || ((216 <=? n) && (n <=? 222))
  then ascii_of_nat (n + 32) else c.

Fixpoint toLowerCase (s : string) : string :=
  match s with
  | EmptyString => EmptyString
  | String c rest => String (lower_ascii c) (toLowerCase rest)
  end.

(** Own names of [Object.prototype], which every object literal inherits
    from.  All of them hold functions, except the [__proto__] accessor,
    which yields [Object.prototype] itself: every one reads as truthy. *)
Definition objectPrototype : list string :=
  [ "constructor"; "hasOwnProperty"; "isPrototypeOf";
    "propertyIsEnumerable"; "toLocaleString"; "toString"; "valueOf";
    "__proto__"; "__defineGetter__"; "__defineSetter__";
    "__lookupGetter__"; "__lookupSetter__" ].

(** White space as [trim] sees it, on the code units below 256: tab, line
    feed, vertical tab, form feed, carriage return, space, no-break space. *)
Definition isSpace (c : ascii) : bool :=
  let n := nat_of_ascii c in
  ((9 <=? n) && (n <=? 13)) || (n =? 32) || (n =? 160).

Fixpoint trimStart (s : string) : string :=
  match s with
  | EmptyString => EmptyString
  | String c rest => if isSpace c then trimStart rest else s
  end.

Fixpoint trimEnd (s : string) : string :=
  match s with
  | EmptyString => EmptyString
  | String c rest =>
      match trimEnd rest with
      | EmptyString => if isSpace c then EmptyString else String c EmptyString
      | kept => String c kept
      end
  end.

(** [s.trim()] *)
Definition trim (s : string) : string := trimEnd (trimStart s).

(** [s.startsWith(p)] *)
Definition startsWith (p s : string) : bool := String.prefix p s.

(** [s.slice(start, stop)]: a negative index counts from the end; both are
    clamped to the string; nothing is left when they cross. *)
Definition slice (start stop : Z) (s : string) : string :=
  let len := Z.of_nat (String.length s) in
  let clamp (k : Z) : Z :=
    if (k <? 0)%Z then Z.max (len + k) 0 else Z.min k len in
  let from := clamp start in
  let to := clamp stop in
  String.substring (Z.to_nat from) (Z.to_nat (to - from)) s.

End JS.

(** ** src/utils/styleUtils.ts *)
Module StyleUtils.

Record CardDynamicStyle := {
  background : string;
  badgeColor : string
}.

#[global] Instance CardDynamicStyle_eq_dec : EqDecision CardDynamicStyle.
Proof. solve_decision. Defined.

Definition energetic : CardDynamicStyle :=
  {| background := "bg-gradient-to-br from-amber-500 to-orange-600";
     badgeColor := "bg-amber-400/20 text-amber-200" |}.
Definition calm : CardDynamicStyle :=
  {| background := "bg-gradient-to-br from-teal-500 to-cyan-600";
     badgeColor := "bg-cyan-400/20 text-cyan-200" |}.
Definition serious : CardDynamicStyle :=
  {| background := "bg-gradient-to-br from-slate-700 to-slate-800";
     badgeColor := "bg-slate-400/20 text-slate-200" |}.
Definition inspirational : CardDynamicStyle :=
  {| background := "bg-gradient-to-br from-purple-500 to-indigo-600";
     badgeColor := "bg-purple-400/20 text-purple-200" |}.
Definition technical : CardDynamicStyle :=
  {| background := "bg-gradient-to-br from-sky-600 to-blue-700";
     badgeColor := "bg-sky-400/20 text-sky-200" |}.
Definition creative : CardDynamicStyle :=
  {| background := "bg-gradient-to-br from-pink-500 to-rose-600";
     badgeColor := "bg-pink-400/20 text-pink-200" |}.

(** The own properties of the object literal [moodStyles]. *)
Definition moodStyles_entries : list (string * CardDynamicStyle) :=
  [ ("energetic", energetic); ("calm", calm); ("serious", serious);
    ("inspirational", inspirational); ("technical", technical);
    ("creative", creative) ].

Definition moodStyles : gmap string CardDynamicStyle :=
  list_to_map moodStyles_entries.

(** What a property read on [moodStyles] can produce: one of its own
    styles, or a member inherited from [Object.prototype] (which is not a
    [CardDynamicStyle], whatever the declared type says). *)
Inductive Value :=
| Style (st : CardDynamicStyle)
| Inherited (name : string).

#[global] Instance Value_eq_dec : EqDecision Value.
Proof. solve_decision. Defined.

(** [moodStyles[k]]: own property first, then the prototype chain. *)
Definition moodStyles_get (k : string) : option Value :=
  match moodStyles !! k with
  | Some st => Some (Style st)
  | None =>
      if bool_decide (k ∈ JS.objectPrototype) then Some (Inherited k)
      else None
  end.

(** [const defaultStyle = moodStyles.serious] *)
Definition defaultStyle : Value :=
  default (Style serious) (moodStyles_get "serious").

(** [getDynamicCardStyles(mood?)]: every value [moodStyles_get] can
    return (an object or a function) is truthy, so the second conjunct of
    the test is [is_Some]. *)
Definition getDynamicCardStyles (mood : option string) : Value :=
  if JS.truthy mood then
    match moodStyles_get (default "" mood) with
    | Some v => v
    | None => defaultStyle
    end
  else defaultStyle.

Definition moods : list string :=
  [ "energetic"; "calm"; "serious"; "inspirational"; "technical";
    "creative" ].

End StyleUtils.

(** ** src/services/geminiService.ts *)
Module GeminiService.

(** The character budget of [bookContent.substring(0, 32000)]. *)
Definition EXCERPT_BUDGET : nat := 32000.

(** The excerpt of the document interpolated into the prompt. *)
Definition promptExcerpt (bookContent : string) : string :=
  JS.substring 0 EXCERPT_BUDGET bookContent.

(** The exclusion block interpolated into the prompt:
    [existingTitles.length > 0 ? `- ${existingTitles.join('\n- ')}` : 'N/A'] *)
Definition newline : string := String (ascii_of_nat 10) "".

Definition promptExclusions (existingTitles : list (option string)) : string :=
  if 0 <? length existingTitles
  then "- " +:+ JS.join (newline +:+ "- ") existingTitles
  else "N/A".

(** What the request to the service is built from. *)
Record Prompt := {
  prompt_exclusions : string;
  prompt_excerpt : string
}.

Definition buildPrompt (bookContent : string)
    (existingTitles : list (option string)) : Prompt :=
  {| prompt_exclusions := promptExclusions existingTitles;
     prompt_excerpt := promptExcerpt bookContent |}.

(** A value caught by a [catch] clause. *)
Inductive Thrown :=
| SyntaxError (message : string)
| Error (message : string)
| NotAnError.

(** What happens inside the [try] block of [generateFlashcard]; the
    service and [JSON.parse] are outside the program.
    - [MissingApiKey]: [getAiInstance] throws before any request is sent;
    - [Threw t]: [generateContent], [response.text.trim()] or
      [JSON.parse] threw [t] ([JSON.parse] throws a [SyntaxError]);
    - [Parsed v]: [JSON.parse] returned [v]; [None] is [null] or any
      other value that is not an object. *)
Inductive Attempt :=
| MissingApiKey
| Threw (t : Thrown)
| Parsed (v : option (gmap string string)).

Definition MISSING_KEY_MESSAGE : string :=
  "Could not connect to the AI service. The API key is missing or invalid. Please ensure it's configured correctly in the environment.".
Definition INVALID_RESPONSE_MESSAGE : string :=
  "The AI returned an invalid response. Please try again.".
Definition UNKNOWN_MESSAGE : string :=
  "An unknown error occurred while generating the flashcard.".

(** The settled promise of [generateFlashcard]: fulfilled with the parsed
    payload, or rejected, always with an [Error] carrying a message. *)
Inductive Settled :=
| Fulfilled (newCardData : option (gmap string string))
| Rejected (err : Thrown).

(** The [catch] clause of [generateFlashcard]. *)
Definition rethrow (error : Thrown) : Thrown :=
  match error with
  | SyntaxError _ => Error INVALID_RESPONSE_MESSAGE
  | Error m => Error m
  | NotAnError => Error UNKNOWN_MESSAGE
  end.

(** How the promise settles: the [try] block followed by the [catch]. *)
Definition outcome (a : Attempt) : Settled :=
  match a with
  | MissingApiKey => Rejected (rethrow (Error MISSING_KEY_MESSAGE))
  | Threw t => Rejected (rethrow t)
  | Parsed v => Fulfilled v
  end.

(** [generateFlashcard(bookContent, existingTitles)], given what the
    attempt meets: the prompt sent to the service, if one is sent, and the
    settled promise. *)
Definition generateFlashcard (bookContent : string)
    (existingTitles : list (option string)) (a : Attempt)
    : option Prompt * Settled :=
  let prompt := buildPrompt bookContent existingTitles in
  (match a with MissingApiKey => None | _ => Some prompt end, outcome a).

(** *** getAiInstance *)

(** The client; all the program gives it is the key. *)
Record GoogleGenAI := {
  apiKey : string
}.

(** The global [process], if there is one, and its [env], if it has one. *)
Record Process := {
  process_env : option (gmap string string)
}.

(** [process.env.API_KEY], [undefined] when a link of the chain is missing. *)
Definition API_KEY (process : option Process) : option string :=
  env ← process ≫= process_env; env !! "API_KEY".

(** [getAiInstance()], with the module variable [ai] passed in and out:
    what it throws or returns, and [ai] afterwards. *)
Definition getAiInstance (process : option Process) (ai : option GoogleGenAI)
    : (Thrown + GoogleGenAI) * option GoogleGenAI :=
  if negb (JS.truthy (API_KEY process))
  then (inl (Error MISSING_KEY_MESSAGE), ai)
  else
    match ai with
    | Some instance => (inr instance, ai)
    | None =>
        let instance := {| apiKey := default "" (API_KEY process) |} in
        (inr instance, Some instance)
    end.

(** *** The text handed to JSON.parse *)

(** [response.text.trim()] with the markdown fence removed, if there is
    one: the lines between the request and [JSON.parse]. *)
Definition responseJsonText (text : string) : string :=
  let jsonText := JS.trim text in
  if JS.startsWith "```json" jsonText
  then JS.trim (JS.slice 7 (-3) jsonText)
  else if JS.startsWith "```" jsonText
  then JS.trim (JS.slice 3 (-3) jsonText)
  else jsonText.

(** *** The try block of generateFlashcard *)

Section WithService.

(** The service and [JSON.parse], outside the program: the text of the
    response to a prompt (or what [generateContent], or reading the text,
    throws), and the value of a JSON text (or the [SyntaxError]). *)
Context (responseText : GoogleGenAI → Prompt → Thrown + string)
        (JSON_parse : string → Thrown + option (gmap string string)).

(** What the [try] block meets, and the module variable [ai] afterwards. *)
Definition attempt (process : option Process) (ai : option GoogleGenAI)
    (bookContent : string) (existingTitles : list (option string))
    : Attempt * option GoogleGenAI :=
  let prompt := buildPrompt bookContent existingTitles in
  match getAiInstance process ai with
  | (inl _, ai') => (MissingApiKey, ai')
  | (inr genAI, ai') =>
      match responseText genAI prompt with
      | inl thrown => (Threw thrown, ai')
      | inr text =>
          match JSON_parse (responseJsonText text) with
          | inl thrown => (Threw thrown, ai')
          | inr value => (Parsed value, ai')
          end
      end
  end.

(** [generateFlashcard] run against the service: the prompt sent, if any,
    the settled promise, and [ai] afterwards. *)
Definition generateFlashcardWith (process : option Process)
    (ai : option GoogleGenAI) (bookContent : string)
    (existingTitles : list (option string))
    : (option Prompt * Settled) * option GoogleGenAI :=
  let r := attempt process ai bookContent existingTitles in
  (generateFlashcard bookContent existingTitles (fst r), snd r).

End WithService.

End GeminiService.

(** ** parseFile and FileUploadScreen

    [parseFile] occurs twice in the sources (a service module and the
    upload screen); the two copies compute the extension and dispatch on it
    in the same way. *)
Module FileUpload.

Record File := {
  name : string;
  bytes : string
}.

(** What a promise is rejected with: an [Error] and its message, or a
    value that is no [Error], such as the event that [fileReader.onerror]
    passes to [reject]. *)
Inductive Rejection :=
| ErrorObject (message : string)
| NotAnError.

(** A settled promise of text. *)
Inductive Outcome :=
| Resolves (text : string)
| Rejects (reason : Rejection).

(** The external parsers a branch of [parseFile] can start. *)
Inductive Parser :=
| FileText       (* file.text() *)
| PdfJs          (* FileReader + pdfjsLib.getDocument *)
| Mammoth        (* mammoth.extractRawText *)
| Marked.        (* file.text() + marked.parse + stripHtml *)

#[global] Instance Parser_eq_dec : EqDecision Parser.
Proof. solve_decision. Defined.

(** The browser and the parsing libraries, outside the program. *)
Record Environment := {
  pdfjsLib_defined : bool;
  FileReader_defined : bool;
  file_text : File → Outcome;
  pdfjs_fullText : File → Outcome;
  mammoth_extractRawText : File → Outcome;
  marked_stripHtml : File → Outcome
}.

Section WithEnvironment.
Context (env : Environment).

(** [file.name.split('.').pop()?.toLowerCase()] *)
Definition fileType (file : File) : option string :=
  JS.toLowerCase <$> JS.pop (JS.split "." (name file)).

(** [case 'lit':] of the [switch (fileType)] *)
Definition is_case (ft : option string) (lit : string) : bool :=
  bool_decide (ft = Some lit).

Definition parseTxt (file : File) : list Parser * Outcome :=
  ([FileText], file_text env file).

(** The PDF branch.  Its [try] returns the promise without awaiting it:
    the [catch] sees only what [new FileReader()] throws, and a rejection
    of the promise (an error of pdf.js, or the event of
    [fileReader.onerror]) goes to the caller as it is. *)
Definition parsePdf (file : File) : list Parser * Outcome :=
  if negb (pdfjsLib_defined env)
  then ([], Rejects (ErrorObject "PDF parsing library is not loaded."))
  else if negb (FileReader_defined env)
  then ([], Rejects (ErrorObject
         "Could not parse the PDF file. It may be corrupted or password-protected."))
  else ([PdfJs], pdfjs_fullText env file).

Definition parseDocx (file : File) : list Parser * Outcome :=
  ([Mammoth],
   match mammoth_extractRawText env file with
   | Resolves value => Resolves value
   | Rejects _ =>
       Rejects (ErrorObject "Could not parse the DOCX file. It may be corrupted.")
   end).

Definition parseMd (file : File) : list Parser * Outcome :=
  ([Marked],
   match marked_stripHtml env file with
   | Resolves text => Resolves text
   | Rejects _ => Rejects (ErrorObject "Could not parse the Markdown file.")
   end).

(** [`Unsupported file type: .${fileType}`] *)
Definition unsupported (ft : option string) : list Parser * Outcome :=
  ([], Rejects (ErrorObject
         ("Unsupported file type: ." +:+ default "undefined" ft))).

(** [parseFile(file)]: the parsers started, in order, and the outcome. *)
Definition parseFile (file : File) : list Parser * Outcome :=
  let ft := fileType file in
  if is_case ft "txt" then parseTxt file
  else if is_case ft "pdf" then parsePdf file
  else if is_case ft "docx" then parseDocx file
  else if is_case ft "md" then parseMd file
  else unsupported ft.

(** The local state of [FileUploadScreen] that [processFile] writes. *)
Record Screen := {
  screen_error : option string;
  screen_isLoading : bool
}.

(** [err instanceof Error ? err.message : 'Failed to process the file.'] *)
Definition shownMessage (err : Rejection) : string :=
  match err with
  | ErrorObject message => message
  | NotAnError => "Failed to process the file."
  end.

(** [processFile(file)], run to the end of its [finally] block: the text
    is handed to the [onUpload] prop only when parsing succeeded. *)
Definition processFile {App : Type} (onUpload : string → App → App)
    (file : File) (app : App) : Screen * App :=
  match snd (parseFile file) with
  | Resolves textContent =>
      ({| screen_error := None; screen_isLoading := false |},
       onUpload textContent app)
  | Rejects err =>
      ({| screen_error := Some (shownMessage err);
          screen_isLoading := false |}, app)
  end.

End WithEnvironment.


(** *** The page loop of the PDF branch *)






(** The messages that [parseFile] writes itself. *)
Definition ownMessages (ft : option string) : list string :=
  [ "PDF parsing library is not loaded.";
    "Could not parse the PDF file. It may be corrupted or password-protected.";
    "Could not parse the DOCX file. It may be corrupted.";
    "Could not parse the Markdown file.";
    "Unsupported file type: ." +:+ default "undefined" ft ].

End FileUpload.

(** ** src/App.tsx and the FlashcardDeck component *)
Module Deck.
Import GeminiService.

(** [FlashcardData]: an object with the string properties [id], [title],
    [content], [category], [mood], [icon]. *)
Abbreviation FlashcardData := (gmap string string).

Definition title (card : FlashcardData) : option string := card !! "title".

(** The arguments of one call of [generateFlashcard]. *)
Record Request := {
  req_bookContent : string;
  req_existingTitles : list (option string)
}.

(** The call made for the document [text] when the deck holds [cards]. *)
Definition requestOf (text : string) (cards : list FlashcardData) : Request :=
  {| req_bookContent := text; req_existingTitles := title <$> cards |}.

(** What the deck does that can be observed from outside, in order: a
    call of [generateFlashcard], a card appended to [flashcards]. *)
Inductive Obs :=
| Called (r : Request)
| Appended (card : FlashcardData).

(** The state of [App] ([bookContent], [flashcards], [isLoading],
    [error]), the state of [FlashcardDeck] ([currentIndex]), the calls of
    [generateFlashcard] whose promise has not settled yet, and the
    observations so far. *)
Record State := {
  bookContent : option string;
  flashcards : list FlashcardData;
  isLoading : bool;
  error : option string;
  currentIndex : nat;
  inFlight : list Request;
  log : list Obs
}.

(** Modelled from the spec: the hook [useLocalStorage] (hooks/useLocalStorage
    is not among the sources).  "The Document text and the full card list
    are persisted under two independent keys in a durable key-value store
    [...] surviving reloads; reset clears both keys": the hook is a state
    cell that starts from the stored value and whose setter, given a
    function, applies it to the current value, as a [useState] setter. *)
Record Store := {
  stored_bookContent : option string;
  stored_flashcards : list FlashcardData
}.

Definition setFlashcards (update : list FlashcardData → list FlashcardData)
    (s : State) : State :=
  {| bookContent := bookContent s; flashcards := update (flashcards s);
     isLoading := isLoading s; error := error s;
     currentIndex := currentIndex s; inFlight := inFlight s; log := log s |}.

Definition setBookContent (v : option string) (s : State) : State :=
  {| bookContent := v; flashcards := flashcards s;
     isLoading := isLoading s; error := error s;
     currentIndex := currentIndex s; inFlight := inFlight s; log := log s |}.

Definition setIsLoading (v : bool) (s : State) : State :=
  {| bookContent := bookContent s; flashcards := flashcards s;
     isLoading := v; error := error s;
     currentIndex := currentIndex s; inFlight := inFlight s; log := log s |}.

Definition setError (v : option string) (s : State) : State :=
  {| bookContent := bookContent s; flashcards := flashcards s;
     isLoading := isLoading s; error := v;
     currentIndex := currentIndex s; inFlight := inFlight s; log := log s |}.

Definition setCurrentIndex (update : nat → nat) (s : State) : State :=
  {| bookContent := bookContent s; flashcards := flashcards s;
     isLoading := isLoading s; error := error s;
     currentIndex := update (currentIndex s); inFlight := inFlight s;
     log := log s |}.

Definition observe (o : Obs) (s : State) : State :=
  {| bookContent := bookContent s; flashcards := flashcards s;
     isLoading := isLoading s; error := error s;
     currentIndex := currentIndex s; inFlight := inFlight s;
     log := log s ++ [o] |}.

Definition setInFlight (update : list Request → list Request)
    (s : State) : State :=
  {| bookContent := bookContent s; flashcards := flashcards s;
     isLoading := isLoading s; error := error s;
     currentIndex := currentIndex s; inFlight := update (inFlight s);
     log := log s |}.

(** The state of a freshly loaded page. *)
Definition initial (st : Store) : State :=
  {| bookContent := stored_bookContent st;
     flashcards := stored_flashcards st;
     isLoading := false; error := None; currentIndex := 0;
     inFlight := []; log := [] |}.

Definition emptyStore : Store :=
  {| stored_bookContent := None; stored_flashcards := [] |}.


(** *** handleNewCardRequest *)

Definition INCOMPLETE_MESSAGE : string :=
  "AI failed to generate a complete flashcard. Please try again.".

(** [newCardData && newCardData.title && newCardData.content &&
     newCardData.category && newCardData.mood && newCardData.icon] *)
Definition complete (newCardData : option (gmap string string)) : bool :=
  match newCardData with
  | None => false
  | Some d =>
      JS.truthy (d !! "title") && JS.truthy (d !! "content")
      && JS.truthy (d !! "category") && JS.truthy (d !! "mood")
      && JS.truthy (d !! "icon")
  end.

(** [{ id: crypto.randomUUID(), ...newCardData }]: the properties of
    [newCardData] are copied over the object that holds the fresh id. *)
Definition newFlashcard (uuid : string)
    (newCardData : option (gmap string string)) : FlashcardData :=
  default ∅ newCardData ∪ {[ "id" := uuid ]}.

(** [err instanceof Error ? err.message : 'An unknown error occurred.'] *)
Definition messageOf (err : Thrown) : string :=
  match err with
  | SyntaxError m | Error m => m
  | NotAnError => "An unknown error occurred."
  end.

(** The call of [handleNewCardRequest] up to its [await].  [cl] is the
    render whose closure is called: the guard and the titles read the
    [bookContent], [isLoading] and [flashcards] of that render. *)
Definition handleNewCardRequest (cl s : State) : State :=
  if negb (JS.truthy (bookContent cl)) || isLoading cl then s
  else
    let existingTitles := title <$> flashcards cl in
    let request := {| req_bookContent := default "" (bookContent cl);
                      req_existingTitles := existingTitles |} in
    setInFlight (λ pending, pending ++ [request])
      (observe (Called request) (setError None (setIsLoading true s))).

(** The rest of [handleNewCardRequest], run when the promise of
    [generateFlashcard] settles; [uuid] is what [crypto.randomUUID()]
    returns if it is called. *)
Definition handleNewCardRequest_settled (settled : Settled) (uuid : string)
    (s : State) : State :=
  let after_try :=
    match settled with
    | Fulfilled newCardData =>
        if complete newCardData then
          let card := newFlashcard uuid newCardData in
          observe (Appended card) (setFlashcards (λ prev, prev ++ [card]) s)
        else setError (Some (messageOf (Error INCOMPLETE_MESSAGE))) s
    | Rejected err => setError (Some (messageOf err)) s
    end in
  setIsLoading false after_try.

(** *** The other handlers *)

Definition handleFileUpload (content : string) (s : State) : State :=
  setError None (setFlashcards (λ _, []) (setBookContent (Some content) s)).

(** [confirmed] is the answer to [window.confirm]. *)
Definition handleReset (confirmed : bool) (s : State) : State :=
  if confirmed
  then setError None (setFlashcards (λ _, []) (setBookContent None s))
  else s.

(** [handleSwipe] of [FlashcardDeck]. *)
Definition handleSwipe (s : State) : State :=
  setCurrentIndex (λ prev, prev + 1) s.

(** *** Rendering and effects *)

(** [App] renders [FlashcardDeck] only when [bookContent] is truthy; the
    state of an unmounted component is dropped, and [useState(0)] starts
    it again at 0. *)
Definition deckMounted (s : State) : bool := JS.truthy (bookContent s).

Definition render (s : State) : State :=
  if deckMounted s then s else setCurrentIndex (λ _, 0) s.

(** The card with [isTop], the only one that can be swiped. *)
Definition topCardShown (s : State) : bool :=
  deckMounted s && (currentIndex s <? length (flashcards s)).

(** The effect of [FlashcardDeck], called with the closure of render [cl]. *)
Definition deckEffect (cl s : State) : State :=
  if deckMounted cl
     && (length (flashcards cl) <=? currentIndex cl)
     && negb (isLoading cl)
     && (0 <? length (flashcards cl))
  then handleNewCardRequest cl s
  else s.

(** The effect of [App]. *)
Definition appEffect (cl s : State) : State :=
  if JS.truthy (bookContent cl)
     && (length (flashcards cl) =? 0)
     && negb (isLoading cl)
  then handleNewCardRequest cl s
  else s.

(** The effects that follow a render: the child's, then the parent's. *)
Definition commit (s : State) : State :=
  appEffect s (deckEffect s s).

(** *** Events *)

Inductive Event :=
| Upload (content : string)       (* FileUploadScreen calls onUpload *)
| Reset (confirmed : bool)        (* the Reset button *)
| Swipe                           (* the top card finished its swipe *)
| Trigger                         (* onGenerateNew of the last render *)
| Settle (a : Attempt) (uuid : string). (* the oldest pending promise settles *)

(** The handler that an event runs.  A swipe needs a top card; a promise
    settles only if it is pending. *)
Definition handle (e : Event) (s : State) : State :=
  match e with
  | Upload content => render (handleFileUpload content s)
  | Reset confirmed => render (handleReset confirmed s)
  | Swipe => if topCardShown s then handleSwipe s else s
  | Trigger => handleNewCardRequest s s
  | Settle a uuid =>
      match inFlight s with
      | [] => s
      | r :: pending =>
          let settled :=
            snd (generateFlashcard (req_bookContent r)
                                   (req_existingTitles r) a) in
          handleNewCardRequest_settled settled uuid
            (setInFlight (λ _, pending) s)
      end
  end.

(** One event: its handler, then the render and the effects.  React runs
    an effect only when one of its dependencies changed; the conditions of
    the two effects read nothing but their dependencies and are false once
    the effects have run, so running them after every event reaches the
    same states. *)
Definition step (e : Event) (s : State) : State := commit (handle e s).

Definition run (evs : list Event) (s : State) : State :=
  foldl (λ s e, step e s) s evs.

(** The first render of a page and its effects. *)
Definition boot (st : Store) : State := commit (initial st).

(** A settled request that appends no card. *)
Definition failed (settled : Settled) : bool :=
  match settled with
  | Rejected _ => true
  | Fulfilled newCardData => negb (complete newCardData)
  end.

(** The bookkeeping of requests agrees with [isLoading], and no error is
    shown while a request is in flight. *)
Definition consistent (s : State) : Prop :=
  length (inFlight s) = (if isLoading s then 1 else 0)
  ∧ (isLoading s = true → error s = None).

(** The calls of [generateFlashcard] in a log, in order. *)
Definition calls (l : list Obs) : list Request :=
  omap (λ o, match o with Called r => Some r | Appended _ => None end) l.

(** The cards appended in a log, in order. *)
Definition appended (l : list Obs) : list FlashcardData :=
  omap (λ o, match o with Appended c => Some c | Called _ => None end) l.

(** Every call in a log passes exactly the titles of the cards appended
    before it, in the order they were appended; [sofar] are the cards
    appended before the log starts. *)
Fixpoint exclusionsExact (sofar : list FlashcardData) (l : list Obs) : Prop :=
  match l with
  | [] => True
  | Called r :: rest =>
      req_existingTitles r = title <$> sofar ∧ exclusionsExact sofar rest
  | Appended card :: rest => exclusionsExact (sofar ++ [card]) rest
  end.

(** The invariant of a session on the document [text]; [base] is the log
    at the upload. *)
Definition inSession (text : string) (base : list Obs) (s : State) : Prop :=
  ∃ l, log s = base ++ l
       ∧ head l = Some (Called (requestOf text []))
       ∧ exclusionsExact [] l
       ∧ flashcards s = appended l
       ∧ bookContent s = Some text
       ∧ length (inFlight s) = (if isLoading s then 1 else 0)
       ∧ length (appended l) + length (inFlight s) ≤ length (calls l)
       ∧ (∀ k r, calls l !! k = Some r →
                 req_bookContent r = text ∧ length (req_existingTitles r) ≤ k).

(** The events of a user at the deck and of the service: no upload, no
    reset. *)
Definition sessionEvent (e : Event) : bool :=
  match e with
  | Swipe | Trigger | Settle _ _ => true
  | Upload _ | Reset _ => false
  end.

(** *** What FlashcardDeck renders *)

Definition hasCards (s : State) : bool := 0 <? length (flashcards s).

Definition isDeckExhausted (s : State) : bool :=
  length (flashcards s) <=? currentIndex s.

Definition showLoadingIndicator (s : State) : bool :=
  isLoading s && isDeckExhausted s.

Definition showCaughtUpMessage (s : State) : bool :=
  negb (isLoading s) && hasCards s && isDeckExhausted s
  && negb (JS.truthy (error s)).

Definition showInitialErrorState (s : State) : bool :=
  negb (isLoading s) && negb (hasCards s) && JS.truthy (error s).

(** [Math.min(currentIndex + 1, cards.length)] of "Card n of N". *)
Definition cardNumber (s : State) : nat :=
  (currentIndex s + 1) `min` length (flashcards s).

(** [cards.map((card, index) => ...)] without the [null]s: the cards that
    are rendered, each with its [isTop]; [index] is the index of the first
    card of [cards]. *)
Fixpoint renderCards (index : nat) (cards : list FlashcardData)
    (currentIndex : nat) : list (FlashcardData * bool) :=
  match cards with
  | [] => []
  | card :: rest =>
      (if index <? currentIndex then []
       else if currentIndex + 2 <? index then []
       else [(card, index =? currentIndex)])
      ++ renderCards (S index) rest currentIndex
  end.

Definition renderedCards (s : State) : list (FlashcardData * bool) :=
  renderCards 0 (flashcards s) (currentIndex s).

(** *** Triggers that share a render *)

(** [onGenerateNew] of the render [cl], called [n] times before React
    renders again: every call reads the same closure. *)
Definition sameRenderTriggers (cl : State) (n : nat) (s : State) : State :=
  Nat.iter n (handleNewCardRequest cl) s.

(** What can happen to the page when a trigger need not meet the latest
    render: an event with its render and effects, or a call of
    [onGenerateNew] of any render [cl]. *)
Inductive Action :=
| Dispatch (e : Event)
| StaleTrigger (cl : State).

Definition act (s : State) (a : Action) : State :=
  match a with
  | Dispatch e => step e s
  | StaleTrigger cl => handleNewCardRequest cl s
  end.

(** *** Further invariants *)

(** A promise that is pending belongs to the latest call. *)
Definition pendingIsLastCall (s : State) : Prop :=
  ∀ r, r ∈ inFlight s → last (calls (log s)) = Some r.

(** The effects have nothing to do: no document, or a request in flight,
    or a card under the cursor. *)
Definition quiescent (s : State) : Prop :=
  JS.truthy (bookContent s) && negb (isLoading s)
  && (length (flashcards s) <=? currentIndex s) = false.

End Deck.

(** ** The Card component *)
Module Card.

Inductive Direction := left | right.

(** The local state of a card. *)
Record State := {
  swipeDirection : option Direction
}.

Definition mounted : State := {| swipeDirection := None |}.

(** [handleSwipe(direction)] *)
Definition handleSwipe (isTop : bool) (direction : Direction) (st : State)
    : State :=
  if negb isTop then st else {| swipeDirection := Some direction |}.

(** [handleAnimationEnd()]: whether [onSwipe] is called. *)
Definition handleAnimationEnd (st : State) : bool :=
  match swipeDirection st with
  | Some _ => true
  | None => false
  end.

Definition animationClass (isTop : bool) (st : State) : string :=
  match swipeDirection st with
  | Some left => "animate-swipe-out-left"
  | Some right => "animate-swipe-out-right"
  | None => if isTop then "animate-pop-in" else ""
  end.

(** What happens to a mounted card: [handleSwipe('right')] is called (the
    Next button) in a render with the prop [isTop]; an animation of the
    card ends. *)
Inductive Event :=
| ClickNext (isTop : bool)
| AnimationEnd.

(** The state after the events, and how often [onSwipe] was called. *)
Fixpoint run (evs : list Event) (st : State) (onSwipeCalls : nat)
    : State * nat :=
  match evs with
  | [] => (st, onSwipeCalls)
  | ClickNext isTop :: rest =>
      run rest (handleSwipe isTop right st) onSwipeCalls
  | AnimationEnd :: rest =>
      run rest st
        (if handleAnimationEnd st then S onSwipeCalls else onSwipeCalls)
  end.

#[global] Instance Event_eq_dec : EqDecision Event.
Proof. solve_decision. Defined.

End Card.

(** ** Sample data for the scenarios *)
Module Samples.
Import Deck GeminiService.

Definition cardT1 : gmap string string :=
  list_to_map [ ("title", "T1"); ("content", "First concept");
                ("category", "Science"); ("mood", "calm"); ("icon", "*") ].



Definition serviceUnavailable : Attempt :=
  Threw (Error "503 Service Unavailable").

(** A freshly loaded page with nothing stored. *)
Definition fresh : State := boot emptyStore.

(** The document "Doc A" has just been uploaded: the first request is out. *)
Definition docA : State := step (Upload "Doc A") fresh.



(** An environment in which every parser returns the bytes of the file. *)
Definition echoEnv : FileUpload.Environment :=
  {| FileUpload.pdfjsLib_defined := true;
     FileUpload.FileReader_defined := true;
     FileUpload.file_text := λ f, FileUpload.Resolves (FileUpload.bytes f);
     FileUpload.pdfjs_fullText := λ f, FileUpload.Resolves (FileUpload.bytes f);
     FileUpload.mammoth_extractRawText :=
       λ f, FileUpload.Resolves (FileUpload.bytes f);
     FileUpload.marked_stripHtml :=
       λ f, FileUpload.Resolves (FileUpload.bytes f) |}.

End Samples.

(* ===================================================================== *)
(** * Part II: properties                                                 *)
(* ===================================================================== *)

(** ** Strings *)
Section StringFacts.

Lemma string_substring_0_length (n : nat) (s : string) :
  String.length (String.substring 0 n s) = n `min` String.length s.
Proof.
  revert n; induction s as [|c s IH]; intros [|n]; simpl; auto.
Qed.

Lemma string_substring_0_prefix (n : nat) (s : string) :
  ∃ rest, s = String.substring 0 n s +:+ rest.
Proof.
  revert n; induction s as [|c s IH]; intros [|n]; simpl.
  - by exists "".
  - by exists "".
  - by exists (String c s).
  - destruct (IH n) as [rest Hrest]. exists rest.
    exact (f_equal (String c) Hrest).
Qed.

Lemma string_substring_0_all (n : nat) (s : string) :
  String.length s ≤ n → String.substring 0 n s = s.
Proof.
  revert n; induction s as [|c s IH]; intros [|n] Hlen; simpl in *;
    try done; try lia.
  f_equal. apply IH. lia.
Qed.

Lemma js_substring_0 (n : nat) (s : string) :
  JS.substring 0 n s = String.substring 0 (n `min` String.length s) s.
Proof.
  unfold JS.substring.
  replace (0 `min` String.length s) with 0 by lia.
  replace (0 `min` (n `min` String.length s)) with 0 by lia.
  f_equal. lia.
Qed.

Lemma js_substring_budget (n : nat) (s : string) :
  (∃ rest, s = JS.substring 0 n s +:+ rest)
  ∧ String.length (JS.substring 0 n s) ≤ n
  ∧ (String.length s ≤ n → JS.substring 0 n s = s).
Proof.
  rewrite js_substring_0. split; [apply string_substring_0_prefix|].
  split; [rewrite string_substring_0_length; lia|].
  intros Hfit. apply string_substring_0_all. lia.
Qed.

End StringFacts.

(** ** The prompt excerpt *)
Section Excerpt.
Import GeminiService.

(** C8: the excerpt of the document placed into the request is a prefix
    of the document, at most [EXCERPT_BUDGET] = 32000 characters long,
    and is the whole document when that fits the budget; every prompt
    that [generateFlashcard] sends carries this excerpt. *)
Theorem promptExcerpt_bounded_prefix (d : string) :
  EXCERPT_BUDGET = 32000
  ∧ (∃ rest, d = promptExcerpt d +:+ rest)
  ∧ String.length (promptExcerpt d) ≤ EXCERPT_BUDGET
  ∧ (String.length d ≤ EXCERPT_BUDGET → promptExcerpt d = d)
  ∧ (∀ existingTitles a prompt,
       fst (generateFlashcard d existingTitles a) = Some prompt →
       prompt_excerpt prompt = promptExcerpt d).
Proof.
  split; [reflexivity|].
  unfold promptExcerpt.
  destruct (js_substring_budget EXCERPT_BUDGET d) as (Hpre & Hlen & Hall).
  split; [exact Hpre|]. split; [exact Hlen|]. split; [exact Hall|].
  intros existingTitles a prompt Hsent.
  destruct a; simpl in Hsent; [discriminate| |]; by injection Hsent as <-.
Qed.

Lemma promptExcerpt_bounded_prefix_witness :
  String.length "Doc A" ≤ EXCERPT_BUDGET ∧ promptExcerpt "Doc A" = "Doc A".
Proof.
  assert (H : String.length "Doc A" ≤ EXCERPT_BUDGET)
    by (apply Nat.leb_le; vm_compute; reflexivity).
  split; [exact H|].
  exact (proj1 (proj2 (proj2 (proj2 (promptExcerpt_bounded_prefix "Doc A"))))
           H).
Defined.

End Excerpt.

(** ** Card styles *)
Section Styles.
Import StyleUtils.

Lemma moodStyles_own (m : string) :
  m ∉ moods → moodStyles !! m = None.
Proof.
  intros Hm. unfold moodStyles. apply not_elem_of_list_to_map_1. exact Hm.
Qed.

(** What [getDynamicCardStyles] returns, by cases on its argument: the own
    entry for the six moods, the default for [undefined], for the empty
    string and for every other name that [Object.prototype] does not
    define, and the inherited member otherwise. *)
Lemma getDynamicCardStyles_cases (mood : option string) :
  defaultStyle = Style serious
  ∧ match mood with
    | None => getDynamicCardStyles mood = defaultStyle
    | Some m =>
        (m ∈ moods →
           Some (getDynamicCardStyles mood) = Style <$> moodStyles !! m)
        ∧ (m ∉ moods → m ∉ JS.objectPrototype →
           getDynamicCardStyles mood = defaultStyle)
        ∧ (m ∈ JS.objectPrototype →
           getDynamicCardStyles mood = Inherited m)
    end.
Proof.
  split; [reflexivity|]. destruct mood as [m|]; [|reflexivity].
  split; [|split].
  - unfold moods. intros Hm.
    repeat (apply elem_of_cons in Hm as [->|Hm]; [reflexivity|]).
    by apply elem_of_nil in Hm.
  - intros Hm Hp. unfold getDynamicCardStyles, moodStyles_get. simpl.
    rewrite (moodStyles_own m Hm).
    rewrite bool_decide_eq_false_2 by exact Hp.
    by destruct (negb (String.eqb m "")).
  - unfold JS.objectPrototype. intros Hm.
    repeat (apply elem_of_cons in Hm as [->|Hm]; [reflexivity|]).
    by apply elem_of_nil in Hm.
Qed.

(** C10: on the mood "constructor" the lookup [moodStyles[mood]] finds the
    member that the object literal inherits from [Object.prototype], which
    is truthy, and [getDynamicCardStyles] returns it instead of the default
    'serious' style. *)
Theorem getDynamicCardStyles_constructor :
  ("constructor" ∉ moods)
  ∧ getDynamicCardStyles (Some "constructor") = Inherited "constructor"
  ∧ getDynamicCardStyles (Some "constructor") ≠ defaultStyle
  ∧ getDynamicCardStyles (Some "playful") = defaultStyle
  ∧ getDynamicCardStyles None = defaultStyle.
Proof.
  split.
  { apply (bool_decide_eq_false_1 ("constructor" ∈ moods)).
    vm_compute. reflexivity. }
  split; [reflexivity|]. split; [|split; reflexivity].
  vm_compute. discriminate.
Qed.

End Styles.

(** ** The deck: handlers and effects *)
Import Deck GeminiService.

Ltac unfold_effects :=
  unfold commit, appEffect, deckEffect, deckMounted in *.

Section DeckBasics.

(** The guard of [handleNewCardRequest]. *)
Lemma handleNewCardRequest_noop (cl s : State) :
  isLoading cl = true ∨ JS.truthy (bookContent cl) = false →
  handleNewCardRequest cl s = s.
Proof.
  unfold handleNewCardRequest. intros [-> | ->]; simpl; [|done].
  by rewrite orb_true_r.
Qed.

Lemma handleNewCardRequest_issues (cl s : State) :
  isLoading cl = false → JS.truthy (bookContent cl) = true →
  let request := requestOf (default "" (bookContent cl)) (flashcards cl) in
  handleNewCardRequest cl s =
    setInFlight (λ pending, pending ++ [request])
      (observe (Called request) (setError None (setIsLoading true s))).
Proof. unfold handleNewCardRequest. by intros -> ->. Qed.

(** No effect fires while a request is in flight, or without a document. *)
Lemma commit_loading (s : State) : isLoading s = true → commit s = s.
Proof.
  intros Hl. unfold_effects. rewrite Hl. simpl.
  by rewrite !andb_false_r, ?andb_false_l.
Qed.

Lemma commit_unmounted (s : State) :
  JS.truthy (bookContent s) = false → commit s = s.
Proof. intros Hb. unfold_effects. by rewrite Hb. Qed.

(** The two effects are exclusive: together they start one request
    exactly when a document is loaded, no request is in flight and the
    cursor is at or past the end of the cards. *)
Lemma commit_spec (s : State) :
  commit s =
    if JS.truthy (bookContent s) && negb (isLoading s)
       && (length (flashcards s) <=? currentIndex s)
    then handleNewCardRequest s s
    else s.
Proof.
  unfold_effects.
  destruct (JS.truthy (bookContent s)), (isLoading s); simpl;
    rewrite ?andb_false_r; simpl; try done.
  rewrite !andb_true_r.
  destruct (length (flashcards s)) as [|n]; simpl; [done|].
  rewrite andb_true_r. by destruct (currentIndex s).
Qed.

Lemma handleNewCardRequest_loading (s : State) :
  isLoading s = false → JS.truthy (bookContent s) = true →
  isLoading (handleNewCardRequest s s) = true.
Proof. intros Hl Hb. by rewrite handleNewCardRequest_issues. Qed.

(** An effect that fires starts a request, so the effects of the next
    render find [isLoading] set: one pass is all there is. *)
Lemma commit_commit (s : State) : commit (commit s) = commit s.
Proof.
  rewrite (commit_spec s).
  destruct (JS.truthy (bookContent s)) eqn:Hb; simpl;
    [|by apply commit_unmounted].
  destruct (isLoading s) eqn:Hl; simpl; [by apply commit_loading|].
  destruct (length (flashcards s) <=? currentIndex s) eqn:Hc.
  - apply commit_loading. by apply handleNewCardRequest_loading.
  - rewrite commit_spec. by rewrite Hb, Hl, Hc.
Qed.

(** While a request is in flight a trigger or a swipe changes the cursor
    at most. *)
Lemma step_Trigger_loading (s : State) :
  isLoading s = true ∨ JS.truthy (bookContent s) = false →
  step Trigger s = s.
Proof.
  intros H. unfold step, handle. rewrite handleNewCardRequest_noop by done.
  destruct H; [by apply commit_loading | by apply commit_unmounted].
Qed.

Lemma step_Swipe_loading (s : State) :
  isLoading s = true →
  step Swipe s = s ∨ step Swipe s = handleSwipe s.
Proof.
  intros Hl. unfold step, handle. destruct (topCardShown s).
  - right. by apply commit_loading.
  - left. by apply commit_loading.
Qed.

End DeckBasics.

(** ** The completeness test of a response *)
Section Completeness.

Lemma truthy_Some (v : option string) :
  JS.truthy v = true ↔ ∃ x, v = Some x ∧ x ≠ "".
Proof.
  destruct v as [x|]; simpl.
  - rewrite negb_true_iff, String.eqb_neq. split.
    + intros Hx. by exists x.
    + by intros (y & [= <-] & Hy).
  - split; [done | by intros (y & Hy & _)].
Qed.


(** The fresh id and the copied properties of an accepted card. *)
Lemma newFlashcard_lookup (uuid : string) (d : gmap string string) (f : string) :
  newFlashcard uuid (Some d) !! f =
    match d !! f with
    | Some x => Some x
    | None => if decide (f = "id") then Some uuid else None
    end.
Proof.
  unfold newFlashcard. simpl. rewrite lookup_union.
  destruct (d !! f) as [x|] eqn:Hd.
  - by destruct ({[ "id" := uuid ]} !! f).
  - rewrite left_id by apply _.
    case_decide as Hf; [subst; by rewrite lookup_singleton_eq|].
    by rewrite lookup_singleton_ne.
Qed.

End Completeness.

(** ** C1: incomplete responses, and moods outside the enumeration *)
Section IncompleteResult.
Import Samples.




End IncompleteResult.

(** ** Requests in flight *)
Section InFlight.

Lemma consistent_commit (s : State) : consistent s → consistent (commit s).
Proof.
  intros Hs. rewrite commit_spec.
  destruct (JS.truthy (bookContent s)) eqn:Hb; simpl; [|done].
  destruct (isLoading s) eqn:Hl; simpl; [done|].
  destruct (length (flashcards s) <=? currentIndex s); [|done].
  rewrite handleNewCardRequest_issues by done.
  destruct Hs as [Hn _]. rewrite Hl in Hn.
  split; simpl; [by rewrite length_app, Hn | done].
Qed.

Lemma consistent_handle (e : Event) (s : State) :
  consistent s → consistent (handle e s).
Proof.
  intros Hs. pose proof Hs as [Hn He].
  destruct e as [content|confirmed| | |a uuid]; simpl.
  - unfold render, deckMounted, handleFileUpload. simpl.
    by destruct (negb (String.eqb content "")).
  - unfold render. by destruct confirmed, (deckMounted _).
  - unfold topCardShown. by destruct (_ && _).
  - destruct (JS.truthy (bookContent s)) eqn:Hb, (isLoading s) eqn:Hl;
      try (by rewrite handleNewCardRequest_noop by auto).
    rewrite handleNewCardRequest_issues by done.
    split; simpl; [by rewrite length_app, Hn | done].
  - destruct (inFlight s) as [|r pending] eqn:Hpending; [done|].
    destruct (isLoading s); [|done].
    unfold handleNewCardRequest_settled.
    split; simpl; [|done].
    destruct (outcome a) as [d|err]; [destruct (complete d)|];
      simpl in *; lia.
Qed.

Lemma consistent_step (e : Event) (s : State) :
  consistent s → consistent (step e s).
Proof. intros Hs. by apply consistent_commit, consistent_handle. Qed.

Lemma consistent_run (evs : list Event) (s : State) :
  consistent s → consistent (run evs s).
Proof.
  revert s; induction evs as [|e evs IH]; intros s Hs; [done|].
  simpl. by apply IH, consistent_step.
Qed.

Lemma consistent_boot (st : Store) : consistent (boot st).
Proof. apply consistent_commit. by split. Qed.

Lemma run_app (evs1 evs2 : list Event) (s : State) :
  run (evs1 ++ evs2) s = run evs2 (run evs1 s).
Proof. unfold run. by rewrite foldl_app. Qed.

(** A burst of triggers is the first trigger. *)
Lemma run_Trigger_burst (n : nat) (s : State) :
  run (replicate (S n) Trigger) s = step Trigger s.
Proof.
  induction n as [|n IH]; [done|].
  rewrite replicate_S_end, run_app, IH. simpl.
  set (s1 := step Trigger s).
  destruct (isLoading s1) eqn:Hl1; [by apply step_Trigger_loading; left|].
  destruct (JS.truthy (bookContent s1)) eqn:Hb1;
    [|by apply step_Trigger_loading; right].
  exfalso. subst s1. unfold step, handle in Hl1, Hb1.
  destruct (isLoading s) eqn:Hl, (JS.truthy (bookContent s)) eqn:Hb;
    try (rewrite handleNewCardRequest_noop in * by auto;
         rewrite ?commit_loading, ?commit_unmounted in * by done;
         congruence).
  rewrite commit_loading in Hl1 by (by apply handleNewCardRequest_loading).
  by rewrite handleNewCardRequest_loading in Hl1.
Qed.

(** With a render between any two triggers: a trigger that finds a request
    in flight, or no document, changes nothing and calls nothing; any
    number of triggers at a deck that is idle with a document loaded makes
    one call of the generator; and at most one request is in flight. *)
Lemma triggers_between_renders :
  (∀ cl s, isLoading cl = true ∨ JS.truthy (bookContent cl) = false →
           handleNewCardRequest cl s = s)
  ∧ (∀ s n, isLoading s = true ∨ JS.truthy (bookContent s) = false →
            run (replicate n Trigger) s = s)
  ∧ (∀ s n, isLoading s = false → JS.truthy (bookContent s) = true →
            let s' := run (replicate (S n) Trigger) s in
            calls (log s') =
              calls (log s)
              ++ [ {| req_bookContent := default "" (bookContent s);
                      req_existingTitles := title <$> flashcards s |} ]
            ∧ isLoading s' = true)
  ∧ (∀ st evs, length (inFlight (run evs (boot st))) ≤ 1).
Proof.
  split; [apply handleNewCardRequest_noop|]. split; [|split].
  - intros s n H. induction n as [|n IH]; [done|].
    rewrite replicate_S_end, run_app, IH. by apply step_Trigger_loading.
  - intros s n Hl Hb. cbv zeta. rewrite run_Trigger_burst.
    unfold step, handle.
    rewrite commit_loading by (by apply handleNewCardRequest_loading).
    rewrite handleNewCardRequest_issues by done. simpl.
    split; [|done]. unfold calls. by rewrite omap_app.
  - intros st evs.
    destruct (consistent_run evs (boot st) (consistent_boot st)) as [Hn _].
    rewrite Hn. by destruct (isLoading _); lia.
Qed.

Lemma sameRenderTriggers_issues (cl : State) (n : nat) (s : State) :
  isLoading cl = false → JS.truthy (bookContent cl) = true →
  let request := requestOf (default "" (bookContent cl)) (flashcards cl) in
  let s' := sameRenderTriggers cl n s in
  log s' = log s ++ replicate n (Called request)
  ∧ inFlight s' = inFlight s ++ replicate n request
  ∧ flashcards s' = flashcards s
  ∧ currentIndex s' = currentIndex s
  ∧ isLoading s' = (if n is 0 then isLoading s else true).
Proof.
  intros Hl Hb. cbv zeta. unfold sameRenderTriggers.
  induction n as [|n (Hlog & Hin & Hcards & Hcur & _)].
  - simpl. by rewrite !app_nil_r.
  - rewrite Nat.iter_succ, handleNewCardRequest_issues by done.
    cbv zeta. simpl. rewrite Hlog, Hin, Hcards, Hcur.
    rewrite <- !app_assoc, <- !replicate_S_end. done.
Qed.



End InFlight.

(** ** C2: a reset while a request is in flight *)
Section StaleResponse.
Import Samples.

(** C2 (as stated, refuted): the document "Doc A" is reset while its first
    request is in flight; when the request then succeeds, its card is in
    the cleared list, although no document is loaded.  If "Doc B" is
    uploaded before the request succeeds, the card lands in the deck of
    "Doc B" and no request is ever made for "Doc B". *)
Lemma stale_card_after_reset :
  let card := newFlashcard "id-1" (Some cardT1) in
  let s1 := step (Reset true) docA in
  let s2 := step (Settle (Parsed (Some cardT1)) "id-1") s1 in
  let t2 := run [Reset true; Upload "Doc B";
                 Settle (Parsed (Some cardT1)) "id-1"] docA in
  inFlight docA = [requestOf "Doc A" []]
  ∧ flashcards s1 = [] ∧ inFlight s1 = [requestOf "Doc A" []]
  ∧ bookContent s2 = None ∧ card ∈ flashcards s2
  ∧ bookContent t2 = Some "Doc B" ∧ card ∈ flashcards t2
  ∧ calls (log t2) = [requestOf "Doc A" []].
Proof.
  cbv zeta. repeat split; try (vm_compute; reflexivity).
  - apply (bool_decide_eq_true_1 (_ ∈ _)). vm_compute. reflexivity.
  - apply (bool_decide_eq_true_1 (_ ∈ _)). vm_compute. reflexivity.
Qed.

(** C2 (amended): a reset while a request is in flight clears the cards and
    the document at once and leaves the request in flight; the program
    keeps no token of the document a request was made for, and when the
    request later succeeds its card is appended to the list as it is then,
    which makes it the only card. *)
Theorem reset_in_flight_then_success
    (s : State) (newCardData : option (gmap string string)) (uuid : string) :
  inFlight s ≠ [] → complete newCardData = true →
  let s1 := step (Reset true) s in
  let s2 := step (Settle (Parsed newCardData) uuid) s1 in
  flashcards s1 = [] ∧ bookContent s1 = None ∧ error s1 = None
  ∧ inFlight s1 = inFlight s ∧ log s1 = log s
  ∧ flashcards s2 = [newFlashcard uuid newCardData]
  ∧ bookContent s2 = None ∧ isLoading s2 = false.
Proof.
  intros Hpos Hc. cbv zeta.
  assert (Hs1 : step (Reset true) s
                = setCurrentIndex (λ _, 0) (handleReset true s)).
  { unfold step, handle, render, deckMounted. simpl.
    by rewrite commit_unmounted. }
  rewrite Hs1. clear Hs1.
  destruct (inFlight s) as [|r pending] eqn:Hpending; [done|].
  assert (Hs2 : step (Settle (Parsed newCardData) uuid)
                  (setCurrentIndex (λ _, 0) (handleReset true s))
                = handleNewCardRequest_settled (Fulfilled newCardData) uuid
                    (setInFlight (λ _, pending)
                       (setCurrentIndex (λ _, 0) (handleReset true s)))).
  { unfold step, handle. simpl. rewrite Hpending.
    apply commit_unmounted. unfold handleNewCardRequest_settled. simpl.
    by rewrite Hc. }
  rewrite Hs2. unfold handleNewCardRequest_settled. simpl. rewrite Hc.
  by rewrite Hpending.
Qed.

Lemma reset_in_flight_then_success_witness :
  flashcards (step (Settle (Parsed (Some cardT1)) "id-1")
                (step (Reset true) docA))
  = [newFlashcard "id-1" (Some cardT1)].
Proof.
  assert (Hpos : inFlight docA ≠ []) by (vm_compute; discriminate).
  assert (Hc : complete (Some cardT1) = true) by (vm_compute; reflexivity).
  exact (proj1 (proj2 (proj2 (proj2 (proj2 (proj2
    (reset_in_flight_then_success docA (Some cardT1) "id-1" Hpos Hc))))))).
Defined.

End StaleResponse.

(** ** C3: what follows a failed request *)
Section AfterFailure.
Import Samples.

(** C3: when a request fails (it is rejected, or its response is
    incomplete) while a document is loaded and the cursor is at or past the
    end of the cards, the effects of the render that follows the failure
    call the generator again, with no action of the user; the error that
    the failure set is cleared by that call. *)
Theorem failed_request_is_reissued (s : State) (a : Attempt) (uuid : string) :
  failed (outcome a) = true →
  inFlight s ≠ [] →
  JS.truthy (bookContent s) = true →
  length (flashcards s) ≤ currentIndex s →
  let s' := step (Settle a uuid) s in
  log s' = log s ++ [Called (requestOf (default "" (bookContent s))
                                       (flashcards s))]
  ∧ isLoading s' = true
  ∧ error s' = None
  ∧ flashcards s' = flashcards s.
Proof.
  intros Hf Hpos Hb Hex. cbv zeta. unfold step, handle.
  destruct (inFlight s) as [|r pending] eqn:Hpending; [done|]. simpl.
  set (s1 := handleNewCardRequest_settled (outcome a) uuid
               (setInFlight (λ _, pending) s)).
  assert (H1 : bookContent s1 = bookContent s ∧ flashcards s1 = flashcards s
               ∧ isLoading s1 = false ∧ currentIndex s1 = currentIndex s
               ∧ log s1 = log s).
  { subst s1. unfold handleNewCardRequest_settled.
    destruct (outcome a) as [d|err]; simpl in *; [|done].
    apply negb_true_iff in Hf. by rewrite Hf. }
  destruct H1 as (Hb1 & Hf1 & Hl1 & Hc1 & Hlog1). clearbody s1.
  rewrite commit_spec, Hb1, Hf1, Hl1, Hc1, Hb. simpl.
  apply Nat.leb_le in Hex. rewrite Hex.
  rewrite handleNewCardRequest_issues by (by rewrite ?Hb1).
  simpl. by rewrite Hb1, Hf1, Hlog1.
Qed.

Lemma failed_request_is_reissued_witness :
  calls (log docA) = [requestOf "Doc A" []]
  ∧ calls (log (step (Settle serviceUnavailable "id-1") docA))
    = [requestOf "Doc A" []; requestOf "Doc A" []].
Proof.
  assert (Hf : failed (outcome serviceUnavailable) = true)
    by reflexivity.
  assert (Hpos : inFlight docA ≠ []) by (vm_compute; discriminate).
  assert (Hb : JS.truthy (bookContent docA) = true) by reflexivity.
  assert (Hex : length (flashcards docA) ≤ currentIndex docA)
    by (vm_compute; lia).
  split; [reflexivity|].
  rewrite (proj1 (failed_request_is_reissued
                    docA serviceUnavailable "id-1" Hf Hpos Hb Hex)).
  reflexivity.
Defined.

End AfterFailure.

(** ** C5: every request ends idle *)
Section ReturnsToIdle.
Import Samples.

(** What the user can do at the deck while a request is in flight. *)
Lemma run_while_loading (mid : list Event) (s : State) :
  Forall (λ e, e = Swipe ∨ e = Trigger) mid →
  isLoading s = true →
  let s' := run mid s in
  isLoading s' = true ∧ flashcards s' = flashcards s
  ∧ error s' = error s ∧ inFlight s' = inFlight s ∧ log s' = log s
  ∧ bookContent s' = bookContent s.
Proof.
  cbv zeta. revert s. induction mid as [|e mid IH]; intros s Hmid Hl; [done|].
  inversion Hmid as [|? ? He Hmid']; subst. simpl.
  assert (Hstep : isLoading (step e s) = true
                  ∧ flashcards (step e s) = flashcards s
                  ∧ error (step e s) = error s
                  ∧ inFlight (step e s) = inFlight s
                  ∧ log (step e s) = log s
                  ∧ bookContent (step e s) = bookContent s).
  { destruct He as [-> | ->].
    - destruct (step_Swipe_loading s Hl) as [-> | ->]; by simpl.
    - by rewrite step_Trigger_loading by auto. }
  destruct Hstep as (Hl' & Hf' & He' & Hn' & Hlog' & Hb').
  destruct (IH (step e s) Hmid' Hl') as (? & ? & ? & ? & ? & ?).
  repeat split; congruence.
Qed.

(** C5: a request that is accepted sets [isLoading]; whatever the user does
    at the deck meanwhile, when the promise settles the handler leaves
    [isLoading] unset, and either appended exactly one card with no error
    shown, or set the error to a message and left the cards and the cursor
    as they were.  (The effects of the render that follows are further
    invocations.) *)
Theorem requestCard_ends_idle
    (s : State) (mid : list Event) (a : Attempt) (uuid : string) :
  JS.truthy (bookContent s) = true →
  isLoading s = false →
  Forall (λ e, e = Swipe ∨ e = Trigger) mid →
  let s1 := run mid (step Trigger s) in
  let s2 := handle (Settle a uuid) s1 in
  isLoading s1 = true
  ∧ isLoading s2 = false
  ∧ currentIndex s2 = currentIndex s1
  ∧ match outcome a with
    | Fulfilled newCardData =>
        if complete newCardData
        then flashcards s2 = flashcards s ++ [newFlashcard uuid newCardData]
             ∧ error s2 = None
        else flashcards s2 = flashcards s
             ∧ error s2 = Some INCOMPLETE_MESSAGE
    | Rejected err =>
        flashcards s2 = flashcards s
        ∧ (∃ message, err = Error message ∧ error s2 = Some message)
    end.
Proof.
  intros Hb Hl Hmid. cbv zeta.
  assert (Hs0 : step Trigger s = handleNewCardRequest s s).
  { unfold step, handle. apply commit_loading.
    by apply handleNewCardRequest_loading. }
  assert (Hl0 : isLoading (step Trigger s) = true).
  { rewrite Hs0. by apply handleNewCardRequest_loading. }
  destruct (run_while_loading mid _ Hmid Hl0)
    as (Hl1 & Hf1 & He1 & Hn1 & _ & _).
  set (s1 := run mid (step Trigger s)) in *. clearbody s1.
  rewrite Hs0, handleNewCardRequest_issues in Hf1, He1, Hn1 by done.
  simpl in Hf1, He1, Hn1.
  split; [done|]. unfold handle. rewrite Hn1.
  destruct (inFlight s ++ _) as [|r pending] eqn:Hpending;
    [by apply app_nil in Hpending as [_ ?]|].
  unfold handleNewCardRequest_settled.
  destruct a as [|[m|m|]|d]; simpl;
    try (repeat split; try done; by eexists).
  destruct (complete d); simpl; by rewrite ?Hf1, ?He1.
Qed.

Lemma requestCard_ends_idle_witness :
  let s := step (Settle (Parsed (Some cardT1)) "id-1") docA in
  let s2 := handle (Settle serviceUnavailable "id-2")
              (run [Trigger] (step Trigger s)) in
  isLoading s2 = false ∧ flashcards s2 = flashcards s
  ∧ error s2 = Some "503 Service Unavailable".
Proof.
  cbv zeta.
  pose (s := step (Settle (Parsed (Some cardT1)) "id-1") docA).
  assert (Hb : JS.truthy (bookContent s) = true) by (vm_compute; reflexivity).
  assert (Hl : isLoading s = false) by (vm_compute; reflexivity).
  assert (Hmid : Forall (λ e, e = Swipe ∨ e = Trigger) [Trigger])
    by (repeat constructor).
  destruct (requestCard_ends_idle s [Trigger] serviceUnavailable "id-2"
              Hb Hl Hmid) as (_ & Hidle & _ & Hcards & m & Hm & Herr).
  fold s. split; [exact Hidle|]. split; [exact Hcards|].
  injection Hm as <-. exact Herr.
Defined.

End ReturnsToIdle.

(** ** C7: the cards only grow, the cursor only advances *)
Section AppendOnly.
Import Samples.

Lemma commit_keeps (s : State) :
  flashcards (commit s) = flashcards s
  ∧ currentIndex (commit s) = currentIndex s
  ∧ bookContent (commit s) = bookContent s.
Proof.
  rewrite commit_spec.
  destruct (JS.truthy (bookContent s)) eqn:Hb; simpl; [|done].
  destruct (isLoading s) eqn:Hl; simpl; [done|].
  destruct (_ <=? _); [|done].
  by rewrite handleNewCardRequest_issues.
Qed.

Lemma handleNewCardRequest_keeps (cl s : State) :
  flashcards (handleNewCardRequest cl s) = flashcards s
  ∧ currentIndex (handleNewCardRequest cl s) = currentIndex s
  ∧ bookContent (handleNewCardRequest cl s) = bookContent s.
Proof. unfold handleNewCardRequest. by destruct (_ || _). Qed.

Lemma step_session_monotone (e : Event) (s : State) :
  sessionEvent e = true →
  flashcards s `prefix_of` flashcards (step e s)
  ∧ currentIndex s ≤ currentIndex (step e s).
Proof.
  intros He. unfold step.
  destruct (commit_keeps (handle e s)) as (-> & -> & _).
  destruct e as [| | | |a uuid]; try discriminate; simpl.
  - destruct (topCardShown s); simpl; split; (done || lia).
  - by destruct (handleNewCardRequest_keeps s s) as (-> & -> & _).
  - destruct (inFlight s) as [|r pending]; [done|].
    unfold handleNewCardRequest_settled.
    destruct (outcome a) as [d|err]; [destruct (complete d)|];
      simpl; split; try done.
    by apply prefix_app_r.
Qed.

(** C7: along every sequence of swipes, triggers and settled requests the
    earlier list of cards is a prefix of the later one (its length does
    not decrease and the entry at each index stays the same card, with its
    id, title and content), the cursor does not decrease, and each call of
    [handleSwipe] raises the cursor by exactly 1 and leaves the cards. *)
Theorem deck_append_only (evs : list Event) (s : State) :
  Forall (λ e, sessionEvent e = true) evs →
  let s' := run evs s in
  flashcards s `prefix_of` flashcards s'
  ∧ length (flashcards s) ≤ length (flashcards s')
  ∧ (∀ i card, flashcards s !! i = Some card →
               flashcards s' !! i = Some card)
  ∧ currentIndex s ≤ currentIndex s'
  ∧ (∀ t, currentIndex (handleSwipe t) = currentIndex t + 1
          ∧ flashcards (handleSwipe t) = flashcards t)
  ∧ (∀ t, topCardShown t = true →
          currentIndex (step Swipe t) = currentIndex t + 1).
Proof.
  intros Hevs. cbv zeta.
  assert (Hmono : flashcards s `prefix_of` flashcards (run evs s)
                  ∧ currentIndex s ≤ currentIndex (run evs s)).
  { revert s. induction Hevs as [|e evs He _ IH]; intros s; [done|].
    simpl. destruct (step_session_monotone e s He) as [Hp Hc].
    destruct (IH (step e s)) as [Hp' Hc'].
    split; [by etrans | lia]. }
  destruct Hmono as [Hp Hc].
  split; [done|]. split; [by apply prefix_length|].
  split; [intros i card Hi; by apply (prefix_lookup_Some _ _ _ _ Hi)|].
  split; [done|]. split; [done|].
  intros t Ht. unfold step, handle. rewrite Ht.
  by destruct (commit_keeps (handleSwipe t)) as (_ & -> & _).
Qed.

Lemma deck_append_only_witness :
  let evs := [Settle (Parsed (Some cardT1)) "id-1"; Swipe;
              Settle serviceUnavailable "id-2"; Trigger] in
  flashcards docA `prefix_of` flashcards (run evs docA)
  ∧ currentIndex docA ≤ currentIndex (run evs docA).
Proof.
  cbv zeta.
  assert (Hevs : Forall (λ e, sessionEvent e = true)
                   [Settle (Parsed (Some cardT1)) "id-1"; Swipe;
                    Settle serviceUnavailable "id-2"; Trigger])
    by (repeat constructor).
  destruct (deck_append_only _ docA Hevs) as (Hp & _ & _ & Hc & _).
  split; [exact Hp | exact Hc].
Defined.

End AppendOnly.

(** ** C6: the exclusion list *)
Section Exclusions.
Import Samples.

Lemma calls_snoc (l : list Obs) (o : Obs) :
  calls (l ++ [o]) =
    calls l ++ match o with Called r => [r] | Appended _ => [] end.
Proof. unfold calls. rewrite omap_app. by destruct o. Qed.

Lemma appended_snoc (l : list Obs) (o : Obs) :
  appended (l ++ [o]) =
    appended l ++ match o with Appended c => [c] | Called _ => [] end.
Proof. unfold appended. rewrite omap_app. by destruct o. Qed.

Lemma exclusionsExact_snoc (sofar : list FlashcardData) (l : list Obs) (o : Obs) :
  exclusionsExact sofar (l ++ [o]) ↔
  exclusionsExact sofar l
  ∧ match o with
    | Called r => req_existingTitles r = title <$> (sofar ++ appended l)
    | Appended _ => True
    end.
Proof.
  revert sofar. induction l as [|[r|c] l IH]; intros sofar; simpl.
  - destruct o; simpl; rewrite ?app_nil_r; tauto.
  - rewrite IH. fold (appended l). tauto.
  - rewrite IH. fold (appended l). by rewrite <- app_assoc.
Qed.

Lemma head_snoc {A} (l : list A) (x y : A) :
  head l = Some x → head (l ++ [y]) = Some x.
Proof. by destruct l. Qed.

Lemma inSession_issue (text : string) (base : list Obs) (s : State) :
  text ≠ "" → isLoading s = false →
  inSession text base s → inSession text base (handleNewCardRequest s s).
Proof.
  intros Htext Hl (l & Hlog & Hhd & Hex & Hf & Hb & Hn & Hcount & Hcalls).
  assert (Htruthy : JS.truthy (bookContent s) = true).
  { rewrite Hb. simpl. by apply negb_true_iff, String.eqb_neq. }
  rewrite handleNewCardRequest_issues by done.
  rewrite Hl in Hn. rewrite Hn in Hcount.
  exists (l ++ [Called (requestOf text (flashcards s))]). simpl.
  rewrite Hlog, Hb, !length_app, Hn, calls_snoc, appended_snoc, app_nil_r,
    length_app.
  simpl. split; [by rewrite <- app_assoc|].
  split; [by apply head_snoc|].
  split; [apply exclusionsExact_snoc; split; [done|]; simpl; by rewrite Hf|].
  split; [done|]. split; [done|]. split; [done|]. split; [lia|].
  intros k r Hk.
  apply lookup_app_Some in Hk as [Hk | [Hge Hk]]; [by apply Hcalls|].
  apply list_lookup_singleton_Some in Hk as [_ <-]. simpl.
  rewrite length_fmap, Hf. split; [done | lia].
Qed.

Lemma inSession_commit (text : string) (base : list Obs) (s : State) :
  text ≠ "" → inSession text base s → inSession text base (commit s).
Proof.
  intros Htext Hs. rewrite commit_spec.
  destruct (JS.truthy (bookContent s)); simpl; [|done].
  destruct (isLoading s) eqn:Hl; simpl; [done|].
  destruct (_ <=? _); [|done]. by apply inSession_issue.
Qed.

Lemma inSession_handle (text : string) (base : list Obs) (e : Event) (s : State) :
  text ≠ "" → sessionEvent e = true →
  inSession text base s → inSession text base (handle e s).
Proof.
  intros Htext He Hs. destruct e as [| | | |a uuid]; try discriminate; simpl.
  - destruct (topCardShown s); [|done].
    destruct Hs as (l & Hs). by exists l.
  - destruct (isLoading s) eqn:Hl;
      [by rewrite handleNewCardRequest_noop by auto|].
    by apply inSession_issue.
  - destruct (inFlight s) as [|r0 pending] eqn:Hpending; [done|].
    destruct Hs as (l & Hlog & Hhd & Hex & Hf & Hb & Hn & Hcount & Hcalls).
    rewrite Hpending in Hn, Hcount.
    destruct (isLoading s); [|done]. simpl in Hn, Hcount.
    assert (pending = []) as -> by (destruct pending; [done | simpl in Hn; lia]).
    unfold handleNewCardRequest_settled.
    destruct (outcome a) as [d|err]; [destruct (complete d)|].
    + exists (l ++ [Appended (newFlashcard uuid d)]). simpl.
      rewrite Hlog, Hf, calls_snoc, appended_snoc, app_nil_r, length_app.
      simpl. split; [by rewrite <- app_assoc|].
      split; [by apply head_snoc|].
      split; [by apply exclusionsExact_snoc|].
      split_and!; try done; lia.
    + exists l. simpl. split_and!; try done; lia.
    + exists l. simpl. split_and!; try done; lia.
Qed.

Lemma inSession_run (text : string) (base : list Obs) (evs : list Event) (s : State) :
  text ≠ "" → Forall (λ e, sessionEvent e = true) evs →
  inSession text base s → inSession text base (run evs s).
Proof.
  intros Htext Hevs. revert s.
  induction Hevs as [|e evs He _ IH]; intros s Hs; [done|].
  simpl. apply IH. unfold step. by apply inSession_commit, inSession_handle.
Qed.

Lemma inSession_upload (text : string) (s0 : State) :
  text ≠ "" → isLoading s0 = false → inFlight s0 = [] →
  inSession text (log s0) (step (Upload text) s0).
Proof.
  intros Htext Hl Hn.
  assert (Htruthy : JS.truthy (Some text) = true).
  { simpl. by apply negb_true_iff, String.eqb_neq. }
  unfold step, handle, render, deckMounted.
  replace (JS.truthy (bookContent (handleFileUpload text s0))) with true.
  rewrite commit_spec.
  replace (JS.truthy (bookContent (handleFileUpload text s0))) with true.
  simpl. rewrite Hl. simpl.
  rewrite handleNewCardRequest_issues by done. simpl.
  exists [Called (requestOf text [])]. simpl. rewrite Hn.
  split_and!; try done.
  intros k r Hk. destruct k; simplify_eq/=. split; [done | lia].
Qed.

(** C6 (as stated, refuted): the first request for "Doc A" fails; the
    second request passes an empty exclusion list, not one title. *)
Lemma second_request_after_failure :
  ¬ (∀ evs k r,
       Forall (λ e, sessionEvent e = true) evs →
       calls (log (run evs docA)) !! k = Some r →
       length (req_existingTitles r) = k).
Proof.
  intros Hclaim.
  specialize (Hclaim [Settle serviceUnavailable "id-1"] 1
                      (requestOf "Doc A" [])).
  assert (H : length (req_existingTitles (requestOf "Doc A" [])) = 1);
    [|discriminate H].
  apply Hclaim; [repeat constructor | vm_compute; reflexivity].
Qed.

(** C6 (amended): in a session that starts with the upload of a document
    while no request is in flight, every call of the generator passes the
    document and exactly the titles of the cards appended so far in the
    session, in the order they were appended; these are the cards of the
    deck, and the call number k+1 passes at most k of them (fewer than k
    once a request has failed); the first call passes the empty list. *)
Theorem exclusions_are_titles_so_far
    (s0 : State) (text : string) (evs : list Event) :
  text ≠ "" → isLoading s0 = false → inFlight s0 = [] →
  Forall (λ e, sessionEvent e = true) evs →
  let s := run evs (step (Upload text) s0) in
  ∃ l, log s = log s0 ++ l
       ∧ head l = Some (Called (requestOf text []))
       ∧ exclusionsExact [] l
       ∧ flashcards s = appended l
       ∧ (∀ k r, calls l !! k = Some r →
                 req_bookContent r = text
                 ∧ length (req_existingTitles r) ≤ k).
Proof.
  intros Htext Hl Hn Hevs. cbv zeta.
  destruct (inSession_run text (log s0) evs _ Htext Hevs
              (inSession_upload text s0 Htext Hl Hn))
    as (l & Hlog & Hhd & Hex & Hf & _ & _ & _ & Hcalls).
  by exists l.
Qed.

Lemma exclusions_are_titles_so_far_witness :
  ∃ l, log (run [Settle (Parsed (Some cardT1)) "id-1"; Swipe]
              (step (Upload "Doc A") fresh)) = log fresh ++ l
       ∧ exclusionsExact [] l.
Proof.
  assert (Htext : "Doc A" ≠ "") by discriminate.
  assert (Hl : isLoading fresh = false) by reflexivity.
  assert (Hn : inFlight fresh = []) by reflexivity.
  assert (Hevs : Forall (λ e, sessionEvent e = true)
                   [Settle (Parsed (Some cardT1)) "id-1"; Swipe])
    by (repeat constructor).
  destruct (exclusions_are_titles_so_far fresh "Doc A" _ Htext Hl Hn Hevs)
    as (l & Hlog & _ & Hex & _).
  exists l. split; [exact Hlog | exact Hex].
Defined.

End Exclusions.

(** ** C9: the extension of an uploaded file *)
Section Upload.
Import FileUpload Samples.








(** Lower-casing reaches the capitals beyond Z: the extension "À" (code
    unit 192) is reported as ".à" (code unit 224), and ".PdF" is a PDF. *)
Example fileType_lowers_latin1 :
  fileType {| name := "x." +:+ String (ascii_of_nat 192) "";
              bytes := "" |}
  = Some (String (ascii_of_nat 224) "")
  ∧ fileType {| name := "Book.PdF"; bytes := "" |} = Some "pdf"
  ∧ JS.toLowerCase (String (ascii_of_nat 215) "")
    = String (ascii_of_nat 215) "".
Proof. split_and!; vm_compute; reflexivity. Qed.

End Upload.

(** ** The scenario of the specification, run on the model *)
Section Scenario.
Import Samples.

(** "Doc A" is uploaded and the first, automatic request succeeds with the
    card T1: the deck holds T1 and the cursor is 0.  A swipe moves the
    cursor to 1 and starts the second request, which excludes "T1".  When
    that request fails, the cards and the cursor stay as they are. *)
Example scenario_doc_A :
  let s1 := step (Settle (Parsed (Some cardT1)) "id-1") docA in
  let s2 := step Swipe s1 in
  let s3 := handle (Settle serviceUnavailable "id-2") s2 in
  title <$> flashcards s1 = [Some "T1"] ∧ currentIndex s1 = 0
  ∧ isLoading s1 = false
  ∧ currentIndex s2 = 1
  ∧ calls (log s2) = [requestOf "Doc A" []; requestOf "Doc A" (flashcards s1)]
  ∧ req_existingTitles (requestOf "Doc A" (flashcards s1)) = [Some "T1"]
  ∧ error s3 = Some "503 Service Unavailable"
  ∧ flashcards s3 = flashcards s1 ∧ currentIndex s3 = 1
  ∧ isLoading s3 = false.
Proof. cbv zeta. split_and!; vm_compute; reflexivity. Qed.

End Scenario.

(** ** More on strings: append, trim, slice *)
Section TextFacts.

Lemma string_app_cons (c : ascii) (a b : string) :
  String c a +:+ b = String c (a +:+ b).
Proof. reflexivity. Qed.

Lemma string_app_nil_l (b : string) : "" +:+ b = b.
Proof. reflexivity. Qed.


Lemma string_app_assoc (a b c : string) :
  (a +:+ b) +:+ c = a +:+ (b +:+ c).
Proof.
  induction a as [|x a IH]; [done|]. by rewrite !string_app_cons, IH.
Qed.

Lemma string_length_app (a b : string) :
  String.length (a +:+ b) = String.length a + String.length b.
Proof.
  induction a as [|x a IH]; [done|].
  rewrite string_app_cons. simpl. by rewrite IH.
Qed.

Lemma string_substring_0_app (b c : string) :
  String.substring 0 (String.length b) (b +:+ c) = b.
Proof.
  induction b as [|x b IH]; simpl.
  - rewrite string_app_nil_l. by destruct c.
  - by rewrite IH.
Qed.

Lemma string_substring_middle (a b c : string) :
  String.substring (String.length a) (String.length b) (a +:+ b +:+ c) = b.
Proof.
  induction a as [|x a IH]; simpl.
  - rewrite ?string_app_nil_l. apply string_substring_0_app.
  - rewrite ?string_app_cons. exact IH.
Qed.

Lemma startsWith_app (p s : string) : JS.startsWith p (p +:+ s) = true.
Proof.
  unfold JS.startsWith. induction p as [|x p IH]; simpl.
  - by destruct s.
  - rewrite ?string_app_cons. by destruct (ascii_dec x x).
Qed.

Lemma startsWith_trans (p q s : string) :
  JS.startsWith p q = true → JS.startsWith q s = true →
  JS.startsWith p s = true.
Proof.
  unfold JS.startsWith. revert q s.
  induction p as [|x p IH]; intros q s Hpq Hqs; [by destruct s|].
  destruct q as [|y q]; [done|]. destruct s as [|z s]; [done|].
  simpl in *.
  destruct (ascii_dec x y) as [->|]; [|done].
  destruct (ascii_dec y z) as [->|]; [|done].
  by apply (IH q s).
Qed.

Lemma trimEnd_snoc (s : string) (c : ascii) :
  JS.isSpace c = false →
  JS.trimEnd (s +:+ String c "") = s +:+ String c "".
Proof.
  intros Hc. induction s as [|x s IH].
  - rewrite ?string_app_nil_l. simpl. by rewrite Hc.
  - rewrite ?string_app_cons. simpl. rewrite IH.
    by destruct s.
Qed.

(** A negative stop index cuts that many characters off the end. *)
Lemma slice_middle (a b c : string) :
  0 < String.length c →
  JS.slice (Z.of_nat (String.length a)) (- Z.of_nat (String.length c))
           (a +:+ b +:+ c) = b.
Proof.
  intros Hc. unfold JS.slice. rewrite !string_length_app.
  replace (Z.of_nat (String.length a) <? 0)%Z with false
    by (symmetry; apply Z.ltb_ge; lia).
  replace (- Z.of_nat (String.length c) <? 0)%Z with true
    by (symmetry; apply Z.ltb_lt; lia).
  set (la := String.length a). set (lb := String.length b).
  set (lc := String.length c).
  replace (Z.to_nat (Z.of_nat la `min` Z.of_nat (la + (lb + lc)))) with la
    by lia.
  replace (Z.to_nat _) with lb by lia.
  apply string_substring_middle.
Qed.

End TextFacts.

(** ** The response text *)
Section ResponseText.

Lemma responseJsonText_cut (body t : string) (c : ascii) :
  String.length t = 2 → JS.isSpace c = false →
  responseJsonText ("```json" +:+ body +:+ t +:+ String c "") = JS.trim body.
Proof.
  intros Ht Hc. unfold responseJsonText.
  set (text := "```json" +:+ body +:+ t +:+ String c "").
  assert (Htrim : JS.trim text = text).
  { unfold JS.trim.
    replace (JS.trimStart text) with text by done.
    subst text. rewrite <- !string_app_assoc. by apply trimEnd_snoc. }
  rewrite Htrim. subst text. rewrite startsWith_app.
  f_equal.
  change 7%Z with (Z.of_nat (String.length "```json")).
  replace (-3)%Z with (- Z.of_nat (String.length (t +:+ String c "")))%Z
    by (rewrite string_length_app, Ht; done).
  apply slice_middle. rewrite string_length_app, Ht. simpl. lia.
Qed.

(** When the trimmed response begins with the json fence, its last three
    characters are cut off whatever they are: a response that is the fence
    line, a body, and any three characters the last of which is not white
    space, is read as the trimmed body.  The closing fence is the case
    [t = "``"], [c = "`"]. *)
Theorem responseJsonText_json_fence (body t : string) (c : ascii) :
  String.length t = 2 → JS.isSpace c = false →
  responseJsonText ("```json" +:+ body +:+ t +:+ String c "") = JS.trim body.
Proof. apply responseJsonText_cut. Qed.

Lemma responseJsonText_json_fence_witness :
  responseJsonText ("```json" +:+ " {} " +:+ "``" +:+ String "`" "") = "{}".
Proof.
  assert (Ht : String.length "``" = 2) by reflexivity.
  assert (Hc : JS.isSpace "`" = false) by reflexivity.
  rewrite (responseJsonText_json_fence " {} " "``" "`" Ht Hc).
  reflexivity.
Defined.

End ResponseText.

(** ** The generator client *)
Section GeneratorClient.

Lemma responseJsonText_plain (text : string) :
  JS.startsWith "```" (JS.trim text) = false →
  responseJsonText text = JS.trim text.
Proof.
  intros Hplain. unfold responseJsonText. rewrite Hplain.
  destruct (JS.startsWith "```json" (JS.trim text)) eqn:Hjson; [|done].
  rewrite (startsWith_trans "```" "```json" (JS.trim text)) in Hplain;
    done.
Qed.

(** A response whose JSON is wrapped in a json fence settles the promise as
    the bare JSON does. *)
Theorem fence_does_not_change_outcome
    (fenced bare : GoogleGenAI → Prompt → Thrown + string)
    (JSON_parse : string → Thrown + option (gmap string string))
    (process : option Process) (ai : option GoogleGenAI)
    (bookContent : string) (existingTitles : list (option string))
    (body : string) :
  JS.startsWith "```" (JS.trim body) = false →
  (∀ genAI prompt, fenced genAI prompt = inr ("```json" +:+ body +:+ "```")) →
  (∀ genAI prompt, bare genAI prompt = inr body) →
  generateFlashcardWith fenced JSON_parse process ai bookContent existingTitles
  = generateFlashcardWith bare JSON_parse process ai bookContent existingTitles.
Proof.
  intros Hplain Hfenced Hbare. unfold generateFlashcardWith, attempt.
  destruct (getAiInstance process ai) as [[thrown|genAI] ai']; [done|].
  rewrite Hfenced, Hbare, (responseJsonText_plain body Hplain).
  change ("```json" +:+ body +:+ "```")
    with ("```json" +:+ body +:+ "``" +:+ String "`" "").
  by rewrite responseJsonText_cut.
Qed.

Lemma fence_does_not_change_outcome_witness :
  let process := Some {| process_env := Some {[ "API_KEY" := "k" ]} |} in
  let parse := λ text : string,
    if String.eqb text "{}" then inr (Some ∅) else inl (SyntaxError "x") in
  generateFlashcardWith (λ _ _, inr ("```json" +:+ " {} " +:+ "```"))
    parse process None "Doc A" []
  = generateFlashcardWith (λ _ _, inr " {} ") parse process None "Doc A" [].
Proof.
  cbv zeta.
  apply (fence_does_not_change_outcome _ _ _ _ _ _ _ " {} ");
    [reflexivity | done | done].
Defined.

Lemma API_KEY_truthy (process : option Process) :
  JS.truthy (API_KEY process) = true ↔
  ∃ p env key, process = Some p ∧ process_env p = Some env
               ∧ env !! "API_KEY" = Some key ∧ key ≠ "".
Proof.
  rewrite truthy_Some. unfold API_KEY. split.
  - intros (key & Hkey & Hne).
    destruct process as [p|]; [|done]. simpl in Hkey.
    destruct (process_env p) as [env|] eqn:Henv; [|done]. simpl in Hkey.
    by exists p, env, key.
  - intros (p & env & key & -> & Henv & Hkey & Hne). simpl.
    rewrite Henv. simpl. by exists key.
Qed.

Lemma getAiInstance_with_key (process : option Process) (ai : option GoogleGenAI) :
  JS.truthy (API_KEY process) = true →
  let instance :=
    default {| apiKey := default "" (API_KEY process) |} ai in
  getAiInstance process ai = (inr instance, Some instance).
Proof.
  intros Hkey. unfold getAiInstance. rewrite Hkey. by destruct ai.
Qed.

(** The key is missing when there is no [process], no [process.env], no
    [API_KEY] in it, or an empty one.  Then [getAiInstance] throws and
    leaves [ai] as it is.  Otherwise it returns the client that [ai] holds
    afterwards: the one it held before, if any, whatever the key is now. *)
Theorem getAiInstance_caches (process : option Process) (ai : option GoogleGenAI) :
  (JS.truthy (API_KEY process) = true ↔
     ∃ p env key, process = Some p ∧ process_env p = Some env
                  ∧ env !! "API_KEY" = Some key ∧ key ≠ "")
  ∧ (JS.truthy (API_KEY process) = false →
       getAiInstance process ai = (inl (Error MISSING_KEY_MESSAGE), ai))
  ∧ (JS.truthy (API_KEY process) = true →
       ∃ instance,
         getAiInstance process ai = (inr instance, Some instance)
         ∧ (∀ old, ai = Some old → instance = old)
         ∧ (ai = None → Some (apiKey instance) = API_KEY process)
         ∧ ∀ process', JS.truthy (API_KEY process') = true →
             getAiInstance process' (Some instance)
             = (inr instance, Some instance)).
Proof.
  split; [apply API_KEY_truthy|]. split.
  - intros Hmissing. unfold getAiInstance. by rewrite Hmissing.
  - intros Hkey. eexists. split; [by apply getAiInstance_with_key|].
    split; [by intros old ->|]. split.
    + intros ->. simpl. apply truthy_Some in Hkey as (key & -> & _). done.
    + intros process' Hkey'. by rewrite getAiInstance_with_key.
Qed.

Lemma getAiInstance_caches_witness :
  let first := Some {| process_env := Some {[ "API_KEY" := "k1" ]} |} in
  let later := Some {| process_env := Some {[ "API_KEY" := "k2" ]} |} in
  ∃ instance,
    getAiInstance first None = (inr instance, Some instance)
    ∧ getAiInstance later (Some instance) = (inr instance, Some instance).
Proof.
  cbv zeta.
  pose (first := Some {| process_env := Some {[ "API_KEY" := "k1" ]} |}).
  pose (later := Some {| process_env := Some {[ "API_KEY" := "k2" ]} |}).
  assert (H1 : JS.truthy (API_KEY first) = true) by reflexivity.
  assert (H2 : JS.truthy (API_KEY later) = true) by reflexivity.
  destruct (proj2 (proj2 (getAiInstance_caches first None)) H1)
    as (instance & Hget & _ & _ & Hlater).
  exists instance. split; [exact Hget | exact (Hlater later H2)].
Defined.

(** Without a key [generateFlashcard] sends no prompt, does not consult the
    service and rejects with the missing-key message; [ai] stays as it is. *)
Theorem generateFlashcard_without_key
    (responseText : GoogleGenAI → Prompt → Thrown + string)
    (JSON_parse : string → Thrown + option (gmap string string))
    (process : option Process) (ai : option GoogleGenAI)
    (bookContent : string) (existingTitles : list (option string)) :
  JS.truthy (API_KEY process) = false →
  generateFlashcardWith responseText JSON_parse process ai
    bookContent existingTitles
  = ((None, Rejected (Error MISSING_KEY_MESSAGE)), ai).
Proof.
  intros Hmissing. unfold generateFlashcardWith, attempt, getAiInstance.
  by rewrite Hmissing.
Qed.

Lemma generateFlashcard_without_key_witness :
  generateFlashcardWith (λ _ _, inr "{}") (λ _, inr (Some ∅))
    (Some {| process_env := Some {[ "API_KEY" := "" ]} |}) None "Doc A" []
  = ((None, Rejected (Error MISSING_KEY_MESSAGE)), None).
Proof.
  apply generateFlashcard_without_key. reflexivity.
Defined.

(** With a key, the prompt is sent, and the promise settles as follows:
    with the parsed value when the response parses; when [JSON.parse]
    throws a [SyntaxError], rejected with the invalid-response message,
    whatever the parser said; when the service throws an [Error], rejected
    with that very error. *)
Theorem generateFlashcard_with_key
    (responseText : GoogleGenAI → Prompt → Thrown + string)
    (JSON_parse : string → Thrown + option (gmap string string))
    (process : option Process) (ai : option GoogleGenAI)
    (bookContent : string) (existingTitles : list (option string)) :
  JS.truthy (API_KEY process) = true →
  ∃ genAI,
    fst (getAiInstance process ai) = inr genAI
    ∧ let prompt := buildPrompt bookContent existingTitles in
      let result :=
        fst (generateFlashcardWith responseText JSON_parse process ai
               bookContent existingTitles) in
      fst result = Some prompt
      ∧ (∀ message, responseText genAI prompt = inl (Error message) →
           snd result = Rejected (Error message))
      ∧ (∀ text message,
           responseText genAI prompt = inr text →
           JSON_parse (responseJsonText text) = inl (SyntaxError message) →
           snd result = Rejected (Error INVALID_RESPONSE_MESSAGE))
      ∧ (∀ text value,
           responseText genAI prompt = inr text →
           JSON_parse (responseJsonText text) = inr value →
           snd result = Fulfilled value).
Proof.
  intros Hkey.
  pose proof (getAiInstance_with_key process ai Hkey) as Hget.
  cbv zeta in Hget. eexists. rewrite Hget. split; [done|]. cbv zeta.
  unfold generateFlashcardWith, attempt. rewrite Hget.
  split_and!.
  - destruct (responseText _ _) as [thrown|text]; [done|].
    by destruct (JSON_parse _).
  - by intros message ->.
  - by intros text message -> ->.
  - by intros text value -> ->.
Qed.

End GeneratorClient.

Section GeneratorClientWitness.

Lemma generateFlashcard_with_key_witness :
  let process := Some {| process_env := Some {[ "API_KEY" := "k" ]} |} in
  let parse := λ text : string,
    if String.eqb text "{}" then inr (Some (∅ : gmap string string))
    else inl (SyntaxError "Unexpected token") in
  snd (fst (generateFlashcardWith (λ _ _, inr "not json") parse process None
              "Doc A" []))
  = Rejected (Error INVALID_RESPONSE_MESSAGE).
Proof.
  cbv zeta.
  pose (process := Some {| process_env := Some {[ "API_KEY" := "k" ]} |}).
  pose (parse := λ text : string,
    if String.eqb text "{}" then inr (Some (∅ : gmap string string))
    else inl (SyntaxError "Unexpected token")).
  assert (Hkey : JS.truthy (API_KEY process) = true) by reflexivity.
  destruct (generateFlashcard_with_key (λ _ _, inr "not json") parse
              process None "Doc A" [] Hkey)
    as (genAI & _ & _ & _ & Hsyntax & _).
  exact (Hsyntax "not json" "Unexpected token" eq_refl eq_refl).
Defined.

End GeneratorClientWitness.

(** ** The exclusion block of the prompt *)
Section PromptExclusions.

Lemma join_dash_lines (x : option string) (titles : list (option string)) :
  "- " +:+ JS.join (newline +:+ "- ") (x :: titles)
  = JS.join newline ((λ t, Some ("- " +:+ default "" t)) <$> (x :: titles)).
Proof.
  revert x. induction titles as [|y titles IH]; intros x; [done|].
  change (JS.join (newline +:+ "- ") (x :: y :: titles))
    with (default "" x +:+ (newline +:+ "- ")
          +:+ JS.join (newline +:+ "- ") (y :: titles)).
  change (JS.join newline
            ((λ t, Some ("- " +:+ default "" t)) <$> x :: y :: titles))
    with (("- " +:+ default "" x) +:+ newline
          +:+ JS.join newline
                ((λ t, Some ("- " +:+ default "" t)) <$> y :: titles)).
  rewrite <- IH. by rewrite !string_app_assoc.
Qed.

(** The exclusion block is "N/A" for no titles; otherwise it has one line
    per title, in order, each made of "- " and the title (nothing after
    the dash for a card without title), the lines separated by a line
    feed. *)
Theorem promptExclusions_lines (existingTitles : list (option string)) :
  (existingTitles = [] → promptExclusions existingTitles = "N/A")
  ∧ (existingTitles ≠ [] →
     promptExclusions existingTitles
     = JS.join newline
         ((λ t, Some ("- " +:+ default "" t)) <$> existingTitles))
  ∧ ∀ bookContent,
      prompt_exclusions (buildPrompt bookContent existingTitles)
      = promptExclusions existingTitles.
Proof.
  split; [by intros ->|]. split; [|done].
  intros Hne. destruct existingTitles as [|x titles]; [done|].
  unfold promptExclusions. simpl length. simpl Nat.ltb.
  apply join_dash_lines.
Qed.

Lemma promptExclusions_lines_witness :
  promptExclusions [Some "T1"; None; Some "T3"]
  = "- T1" +:+ newline +:+ "- " +:+ newline +:+ "- T3".
Proof.
  assert (Hne : [Some "T1"; None; Some "T3"] ≠ []) by discriminate.
  rewrite (proj1 (proj2 (promptExclusions_lines [Some "T1"; None; Some "T3"]))
             Hne).
  reflexivity.
Defined.

End PromptExclusions.

(** ** The message a settled request leaves *)
Section Messages.

(** The error shown after a request settled, by what the attempt met: the
    missing-key message; the invalid-response message for a
    [SyntaxError]; the message of any other [Error]; the generator's own
    unknown-error message for a thrown value that is no [Error]; the
    incomplete-card message for an incomplete response; and the error as it
    was for a complete one.  The fallback message of [App] is shown in no
    case, and a prompt is sent in every case but the first. *)
Theorem settled_error_message
    (s : State) (r : Request) (pending : list Request)
    (a : Attempt) (uuid : string) :
  inFlight s = r :: pending →
  let s' := handle (Settle a uuid) s in
  error s' =
    match a with
    | MissingApiKey => Some MISSING_KEY_MESSAGE
    | Threw (SyntaxError _) => Some INVALID_RESPONSE_MESSAGE
    | Threw (Error message) => Some message
    | Threw NotAnError => Some UNKNOWN_MESSAGE
    | Parsed value =>
        if complete value then error s else Some INCOMPLETE_MESSAGE
    end
  ∧ isLoading s' = false
  ∧ inFlight s' = pending
  ∧ (fst (generateFlashcard (req_bookContent r) (req_existingTitles r) a)
     = None ↔ a = MissingApiKey).
Proof.
  intros Hpending. cbv zeta. unfold handle. rewrite Hpending.
  unfold handleNewCardRequest_settled.
  destruct a as [|[m|m|]|value]; simpl; try (by split_and!).
  destruct (complete value); by split_and!.
Qed.

Lemma settled_error_message_witness :
  error (handle (Settle (Threw (SyntaxError "Unexpected end of JSON input"))
                        "id-1") Samples.docA)
  = Some INVALID_RESPONSE_MESSAGE.
Proof.
  assert (Hpending : inFlight Samples.docA = [requestOf "Doc A" []])
    by reflexivity.
  exact (proj1 (settled_error_message Samples.docA _ _
                  (Threw (SyntaxError "Unexpected end of JSON input"))
                  "id-1" Hpending)).
Defined.

End Messages.

(** ** Invariants of the page *)
Section PageInvariants.

Lemma commit_quiescent (s : State) : quiescent (commit s).
Proof.
  unfold quiescent. rewrite commit_spec.
  destruct (JS.truthy (bookContent s) && negb (isLoading s)
            && (length (flashcards s) <=? currentIndex s)) eqn:Hc; [|done].
  apply andb_true_iff in Hc as [[Hb Hl]%andb_true_iff _].
  apply negb_true_iff in Hl.
  rewrite handleNewCardRequest_issues by done. simpl.
  by rewrite andb_false_r.
Qed.

Lemma run_snoc (evs : list Event) (e : Event) (s : State) :
  run (evs ++ [e]) s = step e (run evs s).
Proof. by rewrite run_app. Qed.

Lemma run_boot_commit (st : Store) (evs : list Event) :
  ∃ t, run evs (boot st) = commit t.
Proof.
  destruct evs as [|e evs _] using rev_ind.
  - by exists (initial st).
  - rewrite run_snoc. by eexists.
Qed.

Lemma pendingIsLastCall_commit (s : State) :
  consistent s → pendingIsLastCall s → pendingIsLastCall (commit s).
Proof.
  intros [Hn _] Hp. rewrite commit_spec.
  destruct (JS.truthy (bookContent s)) eqn:Hb; simpl; [|done].
  destruct (isLoading s) eqn:Hl; simpl; [done|].
  destruct (_ <=? _); [|done].
  rewrite handleNewCardRequest_issues by done.
  destruct (inFlight s) as [|? ?] eqn:Hpending; [|done].
  intros r. simpl. rewrite Hpending, calls_snoc, last_snoc. simpl.
  by intros ->%list_elem_of_singleton.
Qed.

Lemma pendingIsLastCall_handle (e : Event) (s : State) :
  consistent s → pendingIsLastCall s → pendingIsLastCall (handle e s).
Proof.
  intros [Hn _] Hp. destruct e as [content|confirmed| | |a uuid]; simpl.
  - unfold render. by destruct (deckMounted _).
  - unfold render. by destruct confirmed, (deckMounted _).
  - by destruct (topCardShown s).
  - destruct (JS.truthy (bookContent s)) eqn:Hb, (isLoading s) eqn:Hl;
      try (by rewrite handleNewCardRequest_noop by auto).
    rewrite handleNewCardRequest_issues by done.
    destruct (inFlight s) as [|? ?] eqn:Hpending; [|done].
    intros r. simpl. rewrite Hpending, calls_snoc, last_snoc. simpl.
    by intros ->%list_elem_of_singleton.
  - destruct (inFlight s) as [|r0 pending] eqn:Hpending; [done|].
    destruct (isLoading s); [|done]. simpl in Hn.
    assert (pending = []) as -> by (by destruct pending).
    intros r. unfold handleNewCardRequest_settled.
    destruct (outcome a) as [d|err]; [destruct (complete d)|]; simpl;
      by intros ?%elem_of_nil.
Qed.

Lemma pendingIsLastCall_run (evs : list Event) (s : State) :
  consistent s → pendingIsLastCall s →
  consistent (run evs s) ∧ pendingIsLastCall (run evs s).
Proof.
  revert s. induction evs as [|e evs IH]; intros s Hc Hp; [done|].
  simpl. apply IH.
  - by apply consistent_step.
  - unfold step.
    by apply pendingIsLastCall_commit;
      [apply consistent_handle | apply pendingIsLastCall_handle].
Qed.

Lemma loading_pending_issue (cl s : State) :
  (isLoading s = true → inFlight s ≠ [] ∧ error s = None) →
  isLoading (handleNewCardRequest cl s) = true →
  inFlight (handleNewCardRequest cl s) ≠ []
  ∧ error (handleNewCardRequest cl s) = None.
Proof.
  intros Hs. unfold handleNewCardRequest.
  destruct (_ || _); [done|]. simpl. intros _. split; [|done].
  by destruct (inFlight s).
Qed.

Lemma loading_pending_act (a : Action) (s : State) :
  (isLoading s = true → inFlight s ≠ [] ∧ error s = None) →
  isLoading (act s a) = true →
  inFlight (act s a) ≠ [] ∧ error (act s a) = None.
Proof.
  intros Hs. destruct a as [e|cl]; simpl; [|by apply loading_pending_issue].
  unfold step. rewrite commit_spec.
  assert (Hh : isLoading (handle e s) = true →
               inFlight (handle e s) ≠ [] ∧ error (handle e s) = None).
  { destruct e as [content|confirmed| | |a uuid]; simpl.
    - unfold render. destruct (deckMounted _); simpl; intros Hl;
        by destruct (Hs Hl).
    - unfold render. destruct confirmed, (deckMounted _); simpl; intros Hl;
        by destruct (Hs Hl).
    - by destruct (topCardShown s).
    - by apply loading_pending_issue.
    - destruct (inFlight s) eqn:Hpending;
        [intros Hl; destruct (Hs Hl) as [Hne _]; by destruct Hne|].
      unfold handleNewCardRequest_settled.
      destruct (outcome a) as [d|err]; [destruct (complete d)|]; done. }
  destruct (_ && _); [|done]. by apply loading_pending_issue.
Qed.

(** Whatever the interleaving of events and of triggers of stale renders,
    while [isLoading] is set a promise of [generateFlashcard] is pending
    and no error is shown.  The converse needs every trigger to meet the
    latest render: then a pending promise means [isLoading], it is the
    only one and it belongs to the latest call.  Triggers that share a
    render break the converse: after two or more of them at an idle
    render, when the first promise has settled [isLoading] is unset while
    the other promises are still pending. *)
Theorem loading_implies_request_pending :
  (∀ st (acts : list Action),
     let s := foldl act (boot st) acts in
     isLoading s = true → inFlight s ≠ [] ∧ error s = None)
  ∧ (∀ st (evs : list Event),
       let s := run evs (boot st) in
       (inFlight s ≠ [] → isLoading s = true)
       ∧ ∀ r, r ∈ inFlight s →
              inFlight s = [r] ∧ last (calls (log s)) = Some r)
  ∧ (∀ cl n a uuid,
       isLoading cl = false → JS.truthy (bookContent cl) = true →
       inFlight cl = [] →
       let s := handle (Settle a uuid) (sameRenderTriggers cl (S (S n)) cl) in
       isLoading s = false ∧ length (inFlight s) = S n).
Proof.
  split_and!.
  - intros st acts. cbv zeta.
    induction acts as [|a acts IH] using rev_ind.
    + simpl. unfold boot. rewrite commit_spec. simpl.
      destruct (_ && _); [|done]. by apply loading_pending_issue.
    + rewrite foldl_app. simpl. by apply loading_pending_act.
  - intros st evs. cbv zeta.
    assert (Hboot : pendingIsLastCall (boot st)).
    { apply pendingIsLastCall_commit; [by split|].
      by intros r ?%elem_of_nil. }
    destruct (pendingIsLastCall_run evs (boot st) (consistent_boot st) Hboot)
      as [[Hn He] Hp].
    set (s := run evs (boot st)) in *. clearbody s. split.
    + destruct (isLoading s), (inFlight s); simpl in Hn; done.
    + intros r Hr. split; [|by apply Hp].
      destruct (isLoading s), (inFlight s) as [|r0 [|? ?]];
        simpl in Hn; try done; try (by apply elem_of_nil in Hr).
      by apply list_elem_of_singleton in Hr as ->.
  - intros cl n a uuid Hl Hb Hnone. cbv zeta.
    destruct (sameRenderTriggers_issues cl (S (S n)) cl Hl Hb)
      as (_ & Hin & _).
    unfold handle. rewrite Hin, Hnone. simpl.
    unfold handleNewCardRequest_settled.
    destruct (outcome a) as [d|err]; [destruct (complete d)|]; simpl;
      by rewrite length_replicate.
Qed.

Lemma loading_implies_request_pending_witness :
  let idle := step (Settle (Parsed (Some Samples.cardT1)) "id-1")
                   Samples.docA in
  let s := handle (Settle Samples.serviceUnavailable "id-2")
             (sameRenderTriggers idle 2 idle) in
  isLoading s = false ∧ length (inFlight s) = 1.
Proof.
  cbv zeta.
  pose (idle := step (Settle (Parsed (Some Samples.cardT1)) "id-1")
                     Samples.docA).
  assert (Hl : isLoading idle = false) by (vm_compute; reflexivity).
  assert (Hb : JS.truthy (bookContent idle) = true)
    by (vm_compute; reflexivity).
  assert (Hnone : inFlight idle = []) by (vm_compute; reflexivity).
  exact (proj2 (proj2 loading_implies_request_pending) idle 0
           Samples.serviceUnavailable "id-2" Hl Hb Hnone).
Defined.

(** After the effects have run, the deck that is mounted shows neither the
    "All Caught Up" panel with its "Generate More" button nor the
    "Generation Failed" panel with its "Try Again" button; whenever the
    cursor is past the last card, it shows the loading indicator. *)
Theorem retry_panels_never_settle (st : Store) (evs : list Event) :
  let s := run evs (boot st) in
  deckMounted s = true →
  showCaughtUpMessage s = false
  ∧ showInitialErrorState s = false
  ∧ (isDeckExhausted s = true → showLoadingIndicator s = true).
Proof.
  cbv zeta. intros Hm.
  destruct (run_boot_commit st evs) as [t Ht].
  pose proof (commit_quiescent t) as Hq. rewrite <- Ht in Hq.
  set (s := run evs (boot st)) in *. clearbody s.
  unfold quiescent in Hq. unfold deckMounted in Hm. rewrite Hm in Hq.
  unfold showCaughtUpMessage, showInitialErrorState, showLoadingIndicator,
    isDeckExhausted, hasCards.
  destruct (isLoading s); simpl in *; [done|].
  rewrite Hq. rewrite andb_false_r. simpl. split; [done|]. split; [|done].
  destruct (length (flashcards s)); [done|]. done.
Qed.

Lemma retry_panels_never_settle_witness :
  let s := run [Upload "Doc A"; Settle Samples.serviceUnavailable "id-1"]
               Samples.fresh in
  showInitialErrorState s = false ∧ showLoadingIndicator s = true.
Proof.
  cbv zeta.
  assert (Hm : deckMounted
                 (run [Upload "Doc A"; Settle Samples.serviceUnavailable "id-1"]
                      (boot emptyStore)) = true)
    by (vm_compute; reflexivity).
  destruct (retry_panels_never_settle emptyStore
              [Upload "Doc A"; Settle Samples.serviceUnavailable "id-1"] Hm)
    as (_ & Herr & Hload).
  split; [exact Herr|]. apply Hload. vm_compute. reflexivity.
Defined.

End PageInvariants.

(** ** The cards on screen *)
Section Window.

Ltac decide_nat_tests :=
  repeat match goal with
    | |- context [?a <? ?b] =>
        first [ rewrite (proj2 (Nat.ltb_ge a b)) by lia
              | rewrite (proj2 (Nat.ltb_lt a b)) by lia ]
    | |- context [?a =? ?b] =>
        first [ rewrite (proj2 (Nat.eqb_eq a b)) by lia
              | rewrite (proj2 (Nat.eqb_neq a b)) by lia ]
    end.

Lemma renderCards_beyond (index : nat) (cards : list FlashcardData) (ci : nat) :
  ci + 2 < index → renderCards index cards ci = [].
Proof.
  revert index. induction cards as [|card rest IH]; intros index Hi; [done|].
  simpl. decide_nat_tests. simpl. apply IH. lia.
Qed.

Lemma renderCards_before (k index : nat) (cards : list FlashcardData) (ci : nat) :
  index + k = ci →
  renderCards index cards ci = renderCards ci (drop k cards) ci.
Proof.
  revert index cards. induction k as [|k IH]; intros index cards Hk.
  - rewrite drop_0. by replace index with ci by lia.
  - destruct cards as [|card rest]; [done|].
    simpl. decide_nat_tests. simpl. apply IH. lia.
Qed.

Lemma renderCards_at (cards : list FlashcardData) (ci : nat) :
  renderCards ci cards ci =
    match cards with
    | [] => []
    | [a] => [(a, true)]
    | [a; b] => [(a, true); (b, false)]
    | a :: b :: c :: _ => [(a, true); (b, false); (c, false)]
    end.
Proof.
  destruct cards as [|a [|b [|c rest]]];
    cbn [renderCards]; decide_nat_tests; cbn [app];
    rewrite ?(renderCards_beyond (S (S (S ci)))) by lia; done.
Qed.

(** The deck renders the card under the cursor and the next two, in order,
    as far as they exist: at most three cards, none of them from before the
    cursor, and the first of them, and only it, is the top card. *)
Theorem renderedCards_window (s : State) :
  (renderedCards s).*1 = take 3 (drop (currentIndex s) (flashcards s))
  ∧ (renderedCards s).*2 = take (length (renderedCards s)) [true; false; false]
  ∧ length (renderedCards s) ≤ 3
  ∧ (topCardShown s = true → deckMounted s = true ∧
       ∃ card, flashcards s !! currentIndex s = Some card
               ∧ head (renderedCards s) = Some (card, true))
  ∧ (isDeckExhausted s = true → renderedCards s = []).
Proof.
  unfold renderedCards.
  rewrite (renderCards_before (currentIndex s) 0) by lia.
  assert (Hshown : ∀ card, flashcards s !! currentIndex s = Some card →
                           head (drop (currentIndex s) (flashcards s))
                           = Some card).
  { intros card Hc. by rewrite head_lookup, lookup_drop, Nat.add_0_r. }
  assert (Hnone : isDeckExhausted s = true →
                  drop (currentIndex s) (flashcards s) = []).
  { unfold isDeckExhausted. intros H%Nat.leb_le. by apply drop_ge. }
  assert (Htop : topCardShown s = true →
                 deckMounted s = true
                 ∧ ∃ card, flashcards s !! currentIndex s = Some card).
  { unfold topCardShown. intros [Hm Hlt%Nat.ltb_lt]%andb_true_iff.
    split; [done|]. by apply lookup_lt_is_Some_2. }
  set (ci := currentIndex s) in *.
  rewrite renderCards_at.
  destruct (drop ci (flashcards s)) as [|a [|b [|c rest]]] eqn:Hdrop;
    simpl; (split_and!; [done | done | lia | | ]).
  - intros Ht. destruct (Htop Ht) as (Hm & card & Hcard).
    by apply Hshown in Hcard.
  - done.
  - intros Ht. destruct (Htop Ht) as (Hm & card & Hcard). split; [done|].
    exists card. split; [done|]. apply Hshown in Hcard. by simplify_eq/=.
  - intros He. by apply Hnone in He.
  - intros Ht. destruct (Htop Ht) as (Hm & card & Hcard). split; [done|].
    exists card. split; [done|]. apply Hshown in Hcard. by simplify_eq/=.
  - intros He. by apply Hnone in He.
  - intros Ht. destruct (Htop Ht) as (Hm & card & Hcard). split; [done|].
    exists card. split; [done|]. apply Hshown in Hcard. by simplify_eq/=.
  - intros He. by apply Hnone in He.
Qed.

Lemma renderedCards_window_witness :
  let s := run [Settle (Parsed (Some Samples.cardT1)) "id-1"] Samples.docA in
  head (renderedCards s) = Some (newFlashcard "id-1" (Some Samples.cardT1), true).
Proof.
  cbv zeta.
  pose (s := run [Settle (Parsed (Some Samples.cardT1)) "id-1"] Samples.docA).
  assert (Ht : topCardShown s = true) by (vm_compute; reflexivity).
  destruct (proj1 (proj2 (proj2 (proj2 (renderedCards_window s)))) Ht)
    as (_ & card & Hcard & Hhead).
  fold s. rewrite Hhead. f_equal. f_equal.
  assert (Hc : flashcards s !! currentIndex s
               = Some (newFlashcard "id-1" (Some Samples.cardT1)))
    by (vm_compute; reflexivity).
  congruence.
Defined.

(** The number in "Card n of N" lies between 1 and N when there are cards;
    it is the cursor plus one while a card is under the cursor, and N once
    the cursor is past the last card. *)
Theorem cardNumber_bounds (s : State) :
  (hasCards s = true → 1 ≤ cardNumber s ≤ length (flashcards s))
  ∧ (currentIndex s < length (flashcards s) →
     cardNumber s = currentIndex s + 1)
  ∧ (isDeckExhausted s = true → cardNumber s = length (flashcards s)).
Proof.
  unfold cardNumber, hasCards, isDeckExhausted. split_and!.
  - intros H%Nat.ltb_lt. lia.
  - lia.
  - intros H%Nat.leb_le. lia.
Qed.

Lemma cardNumber_bounds_witness :
  cardNumber (run [Settle (Parsed (Some Samples.cardT1)) "id-1"; Swipe]
                Samples.docA) = 1.
Proof.
  pose (s := run [Settle (Parsed (Some Samples.cardT1)) "id-1"; Swipe]
               Samples.docA).
  assert (He : isDeckExhausted s = true) by (vm_compute; reflexivity).
  fold s. rewrite (proj2 (proj2 (cardNumber_bounds s)) He).
  vm_compute. reflexivity.
Defined.

End Window.

(** ** Replenishment *)
Section Replenishment.

(** A swipe of the top card while no request is in flight moves the cursor
    by one; it starts a request, which excludes the titles of all the
    cards, exactly when the card swiped was the last one; before that the
    swipe calls nothing, so no card is generated ahead of the cursor. *)
Theorem swipe_replenishes_at_the_end (s : State) :
  topCardShown s = true → isLoading s = false →
  let s' := step Swipe s in
  currentIndex s' = currentIndex s + 1
  ∧ flashcards s' = flashcards s
  ∧ (currentIndex s + 1 < length (flashcards s) →
       log s' = log s ∧ isLoading s' = false)
  ∧ (currentIndex s + 1 = length (flashcards s) →
       log s' = log s ++ [Called (requestOf (default "" (bookContent s))
                                            (flashcards s))]
       ∧ isLoading s' = true).
Proof.
  intros Ht Hl. cbv zeta. unfold step, handle. rewrite Ht.
  apply andb_true_iff in Ht as [Hm Hlt%Nat.ltb_lt]. unfold deckMounted in Hm.
  destruct (commit_keeps (handleSwipe s)) as (Hf & Hc & _).
  rewrite Hf, Hc. split; [done|]. split; [done|].
  rewrite commit_spec. simpl. rewrite Hm, Hl. simpl. split.
  - intros Hmore. by rewrite (proj2 (Nat.leb_gt _ _)) by lia.
  - intros Hlast. rewrite (proj2 (Nat.leb_le _ _)) by lia.
    by rewrite handleNewCardRequest_issues.
Qed.

Lemma swipe_replenishes_at_the_end_witness :
  let s := step (Settle (Parsed (Some Samples.cardT1)) "id-1") Samples.docA in
  calls (log (step Swipe s))
  = [requestOf "Doc A" []; requestOf "Doc A" (flashcards s)].
Proof.
  cbv zeta.
  pose (s := step (Settle (Parsed (Some Samples.cardT1)) "id-1") Samples.docA).
  assert (Ht : topCardShown s = true) by (vm_compute; reflexivity).
  assert (Hl : isLoading s = false) by (vm_compute; reflexivity).
  assert (Hlast : currentIndex s + 1 = length (flashcards s))
    by (vm_compute; reflexivity).
  destruct (swipe_replenishes_at_the_end s Ht Hl) as (_ & _ & _ & Hcall).
  destruct (Hcall Hlast) as [Hlog _].
  fold s. rewrite Hlog, calls_snoc. reflexivity.
Defined.

Lemma run_cons (e : Event) (evs : list Event) (s : State) :
  run (e :: evs) s = run evs (step e s).
Proof. reflexivity. Qed.

Lemma step_Settle_failed (s : State) (r : Request) (a : Attempt) (uuid : string) :
  inFlight s = [r] → failed (outcome a) = true →
  JS.truthy (bookContent s) = true →
  length (flashcards s) ≤ currentIndex s →
  let s' := step (Settle a uuid) s in
  let request := requestOf (default "" (bookContent s)) (flashcards s) in
  bookContent s' = bookContent s ∧ flashcards s' = flashcards s
  ∧ currentIndex s' = currentIndex s ∧ isLoading s' = true
  ∧ error s' = None ∧ inFlight s' = [request]
  ∧ log s' = log s ++ [Called request].
Proof.
  intros Hpending Hf Hb Hex. cbv zeta. unfold step, handle.
  rewrite Hpending.
  set (s1 := handleNewCardRequest_settled _ uuid _).
  assert (H1 : bookContent s1 = bookContent s ∧ flashcards s1 = flashcards s
               ∧ isLoading s1 = false ∧ currentIndex s1 = currentIndex s
               ∧ log s1 = log s ∧ inFlight s1 = []).
  { subst s1. unfold handleNewCardRequest_settled. simpl.
    destruct (outcome a) as [d|err]; simpl in *; [|done].
    apply negb_true_iff in Hf. by rewrite Hf. }
  destruct H1 as (Hb1 & Hf1 & Hl1 & Hc1 & Hlog1 & Hp1). clearbody s1.
  rewrite commit_spec, Hb1, Hf1, Hl1, Hc1, Hb. simpl.
  apply Nat.leb_le in Hex. rewrite Hex.
  rewrite handleNewCardRequest_issues by (by rewrite ?Hb1).
  simpl. by rewrite Hb1, Hf1, Hlog1, Hp1.
Qed.

(** While the cursor is past the last card of a loaded document, requests
    that fail are repeated without end: after n failures in a row the
    generator has been called n more times with the same arguments, the
    cards are as they were, a request is in flight and no error is shown. *)
Theorem failures_repeat_the_request
    (s : State) (r : Request) (attempts : list (Attempt * string)) :
  inFlight s = [r] →
  JS.truthy (bookContent s) = true →
  length (flashcards s) ≤ currentIndex s →
  Forall (λ au, failed (outcome au.1) = true) attempts →
  let s' := run ((λ au, Settle au.1 au.2) <$> attempts) s in
  let request := requestOf (default "" (bookContent s)) (flashcards s) in
  calls (log s') = calls (log s) ++ replicate (length attempts) request
  ∧ flashcards s' = flashcards s
  ∧ currentIndex s' = currentIndex s
  ∧ (attempts ≠ [] → isLoading s' = true ∧ error s' = None
                      ∧ inFlight s' = [request]).
Proof.
  intros Hpending Hb Hex Hall. cbv zeta. revert s r Hpending Hb Hex.
  induction Hall as [|[a uuid] attempts Ha _ IH]; intros s r Hpending Hb Hex.
  - simpl. by rewrite app_nil_r.
  - simpl in Ha. rewrite fmap_cons, run_cons. cbn [fst snd length].
    destruct (step_Settle_failed s r a uuid Hpending Ha Hb Hex)
      as (Hb1 & Hf1 & Hc1 & Hl1 & He1 & Hin1 & Hlog1).
    set (s1 := step (Settle a uuid) s) in *.
    destruct (IH s1 _ Hin1) as (Hcalls & Hcards & Hcur & Hlast);
      [by rewrite Hb1 | by rewrite Hf1, Hc1 |].
    rewrite Hcalls, Hcards, Hcur, Hlog1, calls_snoc, Hb1, Hf1, Hc1.
    rewrite <- app_assoc. split_and!; try done.
    intros _. destruct attempts as [|au attempts'].
    + simpl. by rewrite Hl1, He1, Hin1.
    + destruct Hlast as (Hl & He & Hin); [done|].
      by rewrite Hl, He, Hin, Hb1, Hf1.
Qed.

Lemma failures_repeat_the_request_witness :
  calls (log (run [Settle MissingApiKey "id-1"; Settle MissingApiKey "id-2";
                   Settle MissingApiKey "id-3"] Samples.docA))
  = replicate 4 (requestOf "Doc A" []).
Proof.
  assert (Hp : inFlight Samples.docA = [requestOf "Doc A" []]) by reflexivity.
  assert (Hb : JS.truthy (bookContent Samples.docA) = true) by reflexivity.
  assert (Hex : length (flashcards Samples.docA) ≤ currentIndex Samples.docA)
    by (vm_compute; lia).
  assert (Hall : Forall (λ au : Attempt * string, failed (outcome au.1) = true)
                   [(MissingApiKey, "id-1"); (MissingApiKey, "id-2");
                    (MissingApiKey, "id-3")])
    by (repeat constructor).
  destruct (failures_repeat_the_request Samples.docA _ _ Hp Hb Hex Hall)
    as (Hcalls & _).
  exact Hcalls.
Defined.

End Replenishment.

(** ** Uploads *)
Section Uploads.
Import FileUpload.

Lemma step_Upload_empty (s : State) :
  step (Upload "") s
  = setCurrentIndex (λ _, 0) (handleFileUpload "" s).
Proof.
  unfold step, handle, render, deckMounted. simpl.
  by apply commit_unmounted.
Qed.

(** A file whose extracted text is empty is accepted without an error
    message, but the empty document counts as no document: the upload
    screen stays, the cards are cleared and the generator is not called. *)
Theorem empty_document_is_no_document
    (env : Environment) (file : File) (s : State) :
  snd (parseFile env file) = Resolves "" →
  let result := processFile env (λ text, step (Upload text)) file s in
  screen_error (fst result) = None
  ∧ bookContent (snd result) = Some ""
  ∧ deckMounted (snd result) = false
  ∧ flashcards (snd result) = []
  ∧ log (snd result) = log s
  ∧ isLoading (snd result) = isLoading s.
Proof.
  intros Hparse. cbv zeta. unfold processFile. rewrite Hparse. simpl.
  by rewrite step_Upload_empty.
Qed.

Lemma empty_document_is_no_document_witness :
  let emptyTxt := {| name := "notes.txt"; bytes := "" |} in
  deckMounted
    (snd (processFile Samples.echoEnv (λ text, step (Upload text))
            emptyTxt Samples.fresh)) = false.
Proof.
  cbv zeta.
  assert (Hparse : snd (parseFile Samples.echoEnv
                          {| name := "notes.txt"; bytes := "" |})
                   = Resolves "") by reflexivity.
  exact (proj1 (proj2 (proj2 (empty_document_is_no_document
                                Samples.echoEnv _ Samples.fresh Hparse)))).
Defined.

(** A document uploaded while a request is still in flight gets no request
    of its own at the upload.  Its first request, with no exclusions, is
    made when the pending one has failed; if the pending one succeeds, its
    card is the first card of the new document, and with the cursor at 0
    no request is made for the new document then. *)
Theorem upload_waits_for_pending_request
    (s : State) (r : Request) (text : string) (a : Attempt) (uuid : string) :
  text ≠ "" → inFlight s = [r] → isLoading s = true →
  let s1 := step (Upload text) s in
  let s2 := step (Settle a uuid) s1 in
  log s1 = log s ∧ bookContent s1 = Some text ∧ flashcards s1 = []
  ∧ inFlight s1 = [r]
  ∧ (failed (outcome a) = true →
       log s2 = log s ++ [Called (requestOf text [])]
       ∧ flashcards s2 = [])
  ∧ (failed (outcome a) = false →
       ∃ newCardData, outcome a = Fulfilled newCardData
         ∧ flashcards s2 = [newFlashcard uuid newCardData]
         ∧ (currentIndex s = 0 → calls (log s2) = calls (log s))).
Proof.
  intros Htext Hpending Hl. cbv zeta.
  assert (Htruthy : JS.truthy (Some text) = true).
  { simpl. by apply negb_true_iff, String.eqb_neq. }
  assert (Hs1 : step (Upload text) s = handleFileUpload text s).
  { unfold step, handle, render, deckMounted.
    replace (JS.truthy (bookContent (handleFileUpload text s))) with true.
    by apply commit_loading. }
  rewrite Hs1. split_and!; try done.
  - intros Hf.
    destruct (step_Settle_failed (handleFileUpload text s) r a uuid)
      as (_ & Hcards & _ & _ & _ & _ & Hlog); try done; simpl; lia.
  - intros Hok. unfold failed in Hok.
    destruct (outcome a) as [newCardData|err] eqn:Hout; [|done].
    apply negb_false_iff in Hok. exists newCardData. split; [done|].
    unfold step, handle. simpl. rewrite Hpending, Hout.
    unfold handleNewCardRequest_settled. rewrite Hok.
    set (s2 := setIsLoading false _).
    destruct (commit_keeps s2) as (Hcards & _ & _).
    rewrite Hcards. split; [done|]. intros Hcur.
    rewrite commit_spec. subst s2. simpl. rewrite Hcur.
    rewrite andb_false_r. simpl. by rewrite calls_snoc, app_nil_r.
Qed.

Lemma upload_waits_for_pending_request_witness :
  let s := step (Reset true) Samples.docA in
  calls (log (step (Settle Samples.serviceUnavailable "id-1")
                (step (Upload "Doc B") s)))
  = [requestOf "Doc A" []; requestOf "Doc B" []].
Proof.
  cbv zeta.
  pose (s := step (Reset true) Samples.docA).
  assert (Htext : "Doc B" ≠ "") by discriminate.
  assert (Hp : inFlight s = [requestOf "Doc A" []]) by reflexivity.
  assert (Hl : isLoading s = true) by reflexivity.
  assert (Hf : failed (outcome Samples.serviceUnavailable) = true)
    by reflexivity.
  destruct (upload_waits_for_pending_request s _ "Doc B"
              Samples.serviceUnavailable "id-1" Htext Hp Hl)
    as (_ & _ & _ & _ & Hfail & _).
  destruct (Hfail Hf) as [Hlog _].
  fold s. rewrite Hlog, calls_snoc. reflexivity.
Defined.

End Uploads.

(** ** A new document at an idle page *)
Section FirstRequest.

(** Uploading a non-empty document while no request is in flight drops the
    cards and the error of the previous document and at once calls the generator
    for the new one, with no exclusions. *)
Theorem upload_starts_first_request (s : State) (text : string) :
  text ≠ "" → isLoading s = false →
  let s' := step (Upload text) s in
  bookContent s' = Some text ∧ flashcards s' = [] ∧ error s' = None
  ∧ isLoading s' = true
  ∧ log s' = log s ++ [Called (requestOf text [])]
  ∧ inFlight s' = inFlight s ++ [requestOf text []].
Proof.
  intros Htext Hl. cbv zeta.
  assert (Htruthy : JS.truthy (Some text) = true).
  { simpl. by apply negb_true_iff, String.eqb_neq. }
  unfold step, handle, render, deckMounted.
  replace (JS.truthy (bookContent (handleFileUpload text s))) with true.
  rewrite commit_spec.
  replace (JS.truthy (bookContent (handleFileUpload text s))) with true.
  simpl. rewrite Hl. simpl.
  by rewrite handleNewCardRequest_issues.
Qed.

Lemma upload_starts_first_request_witness :
  let s := run [Settle (Parsed (Some Samples.cardT1)) "id-1"; Reset true]
               Samples.docA in
  calls (log (step (Upload "Doc B") s))
  = [requestOf "Doc A" []; requestOf "Doc B" []].
Proof.
  cbv zeta.
  pose (s := run [Settle (Parsed (Some Samples.cardT1)) "id-1"; Reset true]
               Samples.docA).
  assert (Htext : "Doc B" ≠ "") by discriminate.
  assert (Hl : isLoading s = false) by (vm_compute; reflexivity).
  destruct (upload_starts_first_request s "Doc B" Htext Hl)
    as (_ & _ & _ & _ & Hlog & _).
  fold s. rewrite Hlog, calls_snoc. vm_compute. reflexivity.
Defined.

(** The id of a new card is the fresh one unless the response has an [id]
    property of its own, which then replaces it; every other property of
    the card is the property of the response. *)
Theorem newFlashcard_properties (uuid : string) (d : gmap string string) :
  (∀ f, f ≠ "id" → newFlashcard uuid (Some d) !! f = d !! f)
  ∧ (d !! "id" = None → newFlashcard uuid (Some d) !! "id" = Some uuid)
  ∧ (∀ own, d !! "id" = Some own →
       newFlashcard uuid (Some d) !! "id" = Some own).
Proof.
  split_and!.
  - intros f Hf. rewrite newFlashcard_lookup.
    destruct (d !! f); [done|]. by case_decide.
  - intros Hnone. by rewrite newFlashcard_lookup, Hnone.
  - intros own Hown. by rewrite newFlashcard_lookup, Hown.
Qed.

Lemma newFlashcard_properties_witness :
  newFlashcard "id-1" (Some (<["id" := "7"]> Samples.cardT1)) !! "id"
  = Some "7".
Proof.
  apply (proj2 (proj2 (newFlashcard_properties "id-1"
                         (<["id" := "7"]> Samples.cardT1)))).
  reflexivity.
Defined.

End FirstRequest.

(** ** Parsing *)
Section Parsing.
Import FileUpload.

(** [parseFile] starts at most one parser.  When it fails, it fails with
    an [Error] that carries one of the five messages it writes itself, or,
    for a text file or a PDF, with what the read was rejected with, which
    need not be an [Error] (the event of [fileReader.onerror]); what the
    DOCX or the Markdown library reported is never passed on.
    [processFile] then shows the message of the [Error], or "Failed to
    process the file." for a value that is no [Error], and leaves the
    application as it is. *)
Theorem parseFile_failure_messages (env : Environment) (file : File) :
  length (fst (parseFile env file)) ≤ 1
  ∧ (∀ err, snd (parseFile env file) = Rejects err →
      (∃ message, err = ErrorObject message
                  ∧ message ∈ ownMessages (fileType file))
      ∨ (fileType file = Some "txt" ∧ file_text env file = Rejects err)
      ∨ (fileType file = Some "pdf" ∧ pdfjsLib_defined env = true
         ∧ FileReader_defined env = true
         ∧ pdfjs_fullText env file = Rejects err))
  ∧ (∀ err (App : Type) (onUpload : string → App → App) (app : App),
       snd (parseFile env file) = Rejects err →
       processFile env onUpload file app
       = ({| screen_error := Some (shownMessage err);
             screen_isLoading := false |}, app))
  ∧ (∀ (App : Type) (onUpload : string → App → App) (app : App),
       fileType file ≠ Some "txt" → fileType file ≠ Some "pdf" →
       screen_error (fst (processFile env onUpload file app))
       ≠ Some "Failed to process the file.").
Proof.
  assert (Hlen : length (fst (parseFile env file)) ≤ 1).
  { unfold parseFile, is_case, parsePdf.
    repeat case_bool_decide; simpl; try lia.
    destruct (pdfjsLib_defined env), (FileReader_defined env); simpl; lia. }
  assert (Hmsg : ∀ err, snd (parseFile env file) = Rejects err →
      (∃ message, err = ErrorObject message
                  ∧ message ∈ ownMessages (fileType file))
      ∨ (fileType file = Some "txt" ∧ file_text env file = Rejects err)
      ∨ (fileType file = Some "pdf" ∧ pdfjsLib_defined env = true
         ∧ FileReader_defined env = true
         ∧ pdfjs_fullText env file = Rejects err)).
  { intros err. unfold parseFile, is_case, ownMessages.
    repeat case_bool_decide.
    - intros Hm. right. left. by split.
    - unfold parsePdf.
      destruct (pdfjsLib_defined env), (FileReader_defined env); simpl.
      + intros Hm. right. right. by split_and!.
      + intros [= <-]. left. eexists. split; [done|]. repeat constructor.
      + intros [= <-]. left. eexists. split; [done|]. repeat constructor.
      + intros [= <-]. left. eexists. split; [done|]. repeat constructor.
    - unfold parseDocx. simpl.
      destruct (mammoth_extractRawText env file); [done|].
      intros [= <-]. left. eexists. split; [done|]. repeat constructor.
    - unfold parseMd. simpl.
      destruct (marked_stripHtml env file); [done|].
      intros [= <-]. left. eexists. split; [done|]. repeat constructor.
    - intros [= <-]. left. eexists. split; [done|]. repeat constructor. }
  split; [exact Hlen|]. split; [exact Hmsg|]. split.
  - intros err App onUpload app Hrej. unfold processFile. by rewrite Hrej.
  - intros App onUpload app Htxt Hpdf. unfold processFile.
    destruct (snd (parseFile env file)) as [text|err] eqn:Hparse; [done|].
    destruct (Hmsg err eq_refl)
      as [(message & -> & Hin) | [[Hft _] | [Hft _]]]; [|done..].
    simpl. unfold ownMessages in Hin. intros [= ->].
    repeat (apply elem_of_cons in Hin as [Hin|Hin]; [discriminate Hin|]).
    by apply elem_of_nil in Hin.
Qed.

Lemma parseFile_failure_messages_witness :
  let env := {| pdfjsLib_defined := true;
                FileReader_defined := true;
                file_text := λ _, Rejects NotAnError;
                pdfjs_fullText := λ _, Rejects NotAnError;
                mammoth_extractRawText :=
                  λ _, Rejects (ErrorObject "Can't find end of central directory");
                marked_stripHtml := λ _, Rejects NotAnError |} in
  let pdf := {| name := "scan.pdf"; bytes := "%PDF" |} in
  screen_error (fst (processFile env (λ text, step (Upload text)) pdf
                       Samples.fresh))
  = Some "Failed to process the file.".
Proof.
  cbv zeta.
  match goal with |- screen_error (fst (processFile ?env ?up ?file ?app)) = _ =>
    rewrite (proj1 (proj2 (proj2 (parseFile_failure_messages env file)))
               NotAnError State up app eq_refl)
  end.
  reflexivity.
Defined.





End Parsing.

(** ** The Card component *)
Section CardComponent.
Import Card.

Lemma card_run_app (evs1 evs2 : list Card.Event) (st : Card.State) (n : nat) :
  Card.run (evs1 ++ evs2) st n
  = Card.run evs2 (Card.run evs1 st n).1 (Card.run evs1 st n).2.
Proof.
  revert st n. induction evs1 as [|[isTop|] evs1 IH]; intros st n; simpl;
    [done | apply IH | apply IH].
Qed.

Lemma card_run_unswiped (evs : list Card.Event) (st : Card.State) (n : nat) :
  ClickNext true ∉ evs → swipeDirection st = None →
  Card.run evs st n = (st, n).
Proof.
  revert st n. induction evs as [|[[]|] evs IH]; intros st n Hno Hst; simpl.
  - done.
  - exfalso. apply Hno. by left.
  - apply IH; [|done]. intros Hin. apply Hno. by right.
  - unfold handleAnimationEnd. rewrite Hst.
    apply IH; [|done]. intros Hin. apply Hno. by right.
Qed.

Lemma card_run_swiped (evs : list Card.Event) (st : Card.State) (n : nat) :
  swipeDirection st = Some right →
  Card.run evs st n
  = (st, n + length (filter (λ e, e = AnimationEnd) evs)).
Proof.
  revert st n. induction evs as [|[[]|] evs IH]; intros st n Hst;
    cbn [Card.run].
  - simpl. by rewrite Nat.add_0_r.
  - rewrite filter_cons_False by done.
    destruct st as [d]. simpl in Hst. subst d.
    by rewrite (IH {| swipeDirection := Some right |}).
  - rewrite filter_cons_False by done. by rewrite (IH st).
  - unfold handleAnimationEnd. rewrite Hst.
    rewrite filter_cons_True by done.
    rewrite (IH st) by done. simpl. f_equal. lia.
Qed.

(** A card calls [onSwipe] only after its Next button was clicked while it
    was the top card: until then no animation end (that of the pop-in
    included) and no click advances the deck; from then on the card shows
    the swipe-out animation and every animation end calls [onSwipe] once. *)
Theorem card_advances_only_after_top_click (before after : list Card.Event) :
  ClickNext true ∉ before →
  Card.run before mounted 0 = (mounted, 0)
  ∧ let result := Card.run (before ++ ClickNext true :: after) mounted 0 in
    result.2 = length (filter (λ e, e = AnimationEnd) after)
    ∧ animationClass true result.1 = "animate-swipe-out-right".
Proof.
  intros Hno.
  pose proof (card_run_unswiped before mounted 0 Hno eq_refl) as Hbefore.
  split; [exact Hbefore|]. cbv zeta.
  rewrite card_run_app, Hbefore. simpl.
  by rewrite card_run_swiped.
Qed.

Lemma card_advances_only_after_top_click_witness :
  (Card.run ([AnimationEnd; ClickNext false; AnimationEnd]
             ++ ClickNext true :: [AnimationEnd]) mounted 0).2 = 1.
Proof.
  assert (Hno : ClickNext true ∉ [AnimationEnd; ClickNext false; AnimationEnd]).
  { apply (bool_decide_eq_false_1 (_ ∈ _)). vm_compute. reflexivity. }
  destruct (card_advances_only_after_top_click _ [AnimationEnd] Hno)
    as [_ [Hcalls _]].
  exact Hcalls.
Defined.

End CardComponent.

(** ** Card styles, on the moods that are styled *)
Section StylesWitness.
Import StyleUtils.

Lemma getDynamicCardStyles_cases_witness :
  getDynamicCardStyles (Some "dreamy") = Style serious.
Proof.
  destruct (getDynamicCardStyles_cases (Some "dreamy"))
    as (Hdefault & _ & Hother & _).
  rewrite <- Hdefault. apply Hother.
  - apply (bool_decide_eq_false_1 (_ ∈ _)). vm_compute. reflexivity.
  - apply (bool_decide_eq_false_1 (_ ∈ _)). vm_compute. reflexivity.
Defined.

End StylesWitness.

(** ** A reset that is declined *)
Section DeclinedReset.

Lemma render_unmounted_cursor (t : State) :
  deckMounted (render t) = false → currentIndex (render t) = 0.
Proof.
  unfold render. destruct (deckMounted t) eqn:Hm; [|done]. by rewrite Hm.
Qed.

Lemma unmounted_cursor_step (e : Event) (s : State) :
  (deckMounted s = false → currentIndex s = 0) →
  deckMounted (step e s) = false → currentIndex (step e s) = 0.
Proof.
  intros Hs. unfold step, deckMounted in *.
  destruct (commit_keeps (handle e s)) as (_ & -> & ->).
  destruct e as [content|confirmed| | |a uuid]; simpl.
  - apply render_unmounted_cursor.
  - apply render_unmounted_cursor.
  - unfold topCardShown, deckMounted.
    destruct (JS.truthy (bookContent s)) eqn:Hb; simpl; [|by auto].
    destruct (_ <? _); simpl; congruence.
  - by destruct (handleNewCardRequest_keeps s s) as (_ & -> & ->).
  - destruct (inFlight s); [exact Hs|].
    unfold handleNewCardRequest_settled.
    destruct (outcome a) as [d|err]; [destruct (complete d)|]; exact Hs.
Qed.

Lemma unmounted_cursor_run (evs : list Event) (s : State) :
  (deckMounted s = false → currentIndex s = 0) →
  deckMounted (run evs s) = false → currentIndex (run evs s) = 0.
Proof.
  revert s. induction evs as [|e evs IH]; intros s Hs; [done|].
  rewrite run_cons. by apply IH, unmounted_cursor_step.
Qed.

(** In every state the page reaches, answering "Cancel" to the question of
    the Reset button changes nothing and calls nothing. *)
Theorem declined_reset_changes_nothing (st : Store) (evs : list Event) :
  let s := run evs (boot st) in
  step (Reset false) s = s.
Proof.
  cbv zeta.
  assert (Hcur : deckMounted (run evs (boot st)) = false →
                 currentIndex (run evs (boot st)) = 0).
  { apply unmounted_cursor_run. intros _. unfold boot.
    by destruct (commit_keeps (initial st)) as (_ & -> & _). }
  destruct (run_boot_commit st evs) as [t Ht].
  set (s := run evs (boot st)) in *. clearbody s.
  unfold step, handle, handleReset.
  assert (Hrender : render s = s).
  { unfold render. destruct (deckMounted s) eqn:Hm; [done|].
    destruct s. simpl in *. by rewrite Hcur. }
  rewrite Hrender, Ht. apply commit_commit.
Qed.

End DeclinedReset.
